(** * Key matching, counted movements and operators of the Vim emulation

    A shallow embedding of [src/actions/actions.ts]: the keypress comparison,
    the action registry and its matcher, the counted-movement loop of
    [BaseMovement], the find/till and word movements, and the range
    arithmetic of the delete and yank operators.

    JavaScript numbers that hold counts, lines and columns are integers and
    are modelled by [Z]; strings are [string] (the key tokens are ASCII);
    arrays are lists. *)

From Stdlib Require Import ZArith List String Ascii Bool Lia.
Import ListNotations.

Open Scope string_scope.
Open Scope Z_scope.

(* ================================================================= *)
(** ** JavaScript string primitives used by the source *)

Module JS.

(** [s.length] *)
Definition length (s : string) : Z := Z.of_nat (String.length s).

(** [s.indexOf(t)]: the index of the first occurrence of [t] in [s],
    [-1] when there is none. *)
Definition indexOf (s t : string) : Z :=
  match String.index 0 t s with
  | Some i => Z.of_nat i
  | None => -1
  end.

(** [a || b] on an optional boolean ([undefined] and [false] are falsy). *)
Definition or (a b : option bool) : option bool :=
  match a with
  | Some true => a
  | _ => b
  end.

End JS.

(* ================================================================= *)
(** ** Keypress comparison *)

Definition controlKeys : list string :=
  [ "ctrl"; "alt"; "shift"; "esc"; "delete"; "left"; "right"; "up"; "down" ].

(** The loop of [containsControlKey], over the remaining control keys. *)
Fixpoint containsControlKey_from (keys : list string) (s : string) : bool :=
  match keys with
  | [] => false
  | controlKey :: rest =>
      if negb (JS.indexOf s controlKey =? -1) then true
      else containsControlKey_from rest s
  end.

Definition containsControlKey (s : string) : bool :=
  containsControlKey_from controlKeys s.

Definition isSingleNumber (s : string) : bool :=
  (JS.length s =? 1) && (JS.indexOf "1234567890" s >? -1).

(** The body of the [for] loop of [compareKeypressSequence]; [i] and [j]
    advance together, so the two arrays are walked in lockstep.  The caller
    has checked that the lengths agree. *)
Fixpoint compareKeypressSequence_loop (one two : list string) : bool :=
  match one, two with
  | left_ :: one', right_ :: two' =>
      if String.eqb left_ "<any>" then compareKeypressSequence_loop one' two'
      else if String.eqb right_ "<any>" then compareKeypressSequence_loop one' two'
      else if String.eqb left_ "<number>" && isSingleNumber right_
        then compareKeypressSequence_loop one' two'
      else if String.eqb right_ "<number>" && isSingleNumber left_
        then compareKeypressSequence_loop one' two'
      else if String.eqb left_ "<character>" && negb (containsControlKey right_)
        then compareKeypressSequence_loop one' two'
      else if String.eqb right_ "<character>" && negb (containsControlKey left_)
        then compareKeypressSequence_loop one' two'
      else if negb (String.eqb left_ right_) then false
      else compareKeypressSequence_loop one' two'
  | _, _ => true
  end.

Definition compareKeypressSequence (one two : list string) : bool :=
  if negb (Nat.eqb (List.length one) (List.length two)) then false
  else compareKeypressSequence_loop one two.

(* ================================================================= *)
(** ** Data model *)

(** [ModeName] of [mode/mode.ts]; the declaration is not part of the
    sources at hand, the constructors are the modes [actions.ts] names. *)
Inductive ModeName :=
  | Normal | Insert | Visual | VisualLine | VisualBlock
  | VisualBlockInsertMode | SearchInProgressMode | Replace.

Definition ModeName_eqb (a b : ModeName) : bool :=
  match a, b with
  | Normal, Normal | Insert, Insert | Visual, Visual
  | VisualLine, VisualLine | VisualBlock, VisualBlock
  | VisualBlockInsertMode, VisualBlockInsertMode
  | SearchInProgressMode, SearchInProgressMode | Replace, Replace => true
  | _, _ => false
  end.

(** [RegisterMode] of [register/register.ts]. *)
Inductive RegisterMode :=
  | FigureItOutFromContext | CharacterWise | LineWise | BlockWise.

Definition RegisterMode_eqb (a b : RegisterMode) : bool :=
  match a, b with
  | FigureItOutFromContext, FigureItOutFromContext
  | CharacterWise, CharacterWise | LineWise, LineWise
  | BlockWise, BlockWise => true
  | _, _ => false
  end.

(** The classes of [actions.ts] that extend [BaseOperator]; a pending
    operator is an instance of one of them. *)
Inductive OperatorClass :=
  | DeleteOperator | DeleteOperatorVisual | YankOperator
  | ShiftYankOperatorVisual | DeleteOperatorXVisual | ChangeOperatorSVisual
  | UpperCaseOperator | UpperCaseWithMotion | LowerCaseOperator
  | LowerCaseWithMotion | ChangeOperator | IndentOperator | OutdentOperator
  | YankVisualBlockMode | ToggleCaseOperator | ToggleCaseWithMotion.

(** [o instanceof ChangeOperator]: no class extends [ChangeOperator]. *)
Definition instanceof_ChangeOperator (o : option OperatorClass) : bool :=
  match o with
  | Some ChangeOperator => true
  | _ => false
  end.

Record Position := mkPosition { line : Z; character : Z }.

(** The result of a (more sophisticated) movement. *)
Record IMovement := mkIMovement {
  start : Position;
  stop : Position;
  failed : option bool;
  registerMode : option RegisterMode
}.

(** [Position | IMovement], told apart in the source by [instanceof
    Position] and [isIMovement]. *)
Inductive MoveResult :=
  | APosition (p : Position)
  | AMovement (m : IMovement).

(** A constructed action: its class and the keys that triggered it. *)
Record ActionInstance := mkActionInstance {
  instanceOf : string;
  keysPressed : list string
}.

Record RecordedState := mkRecordedState {
  count : Z;
  operator : option OperatorClass;
  registerName : string;
  actionsRun : list ActionInstance;
  actionKeys : list string
}.

Record VimState := mkVimState {
  currentMode : ModeName;
  cursorPosition : Position;
  cursorStartPosition : Position;
  cursorPositionJustBeforeAnythingHappened : Position;
  desiredColumn : Z;
  currentRegisterMode : RegisterMode;
  recordedState : RecordedState
}.

Definition set_currentMode (m : ModeName) (v : VimState) : VimState :=
  mkVimState m (cursorPosition v) (cursorStartPosition v)
    (cursorPositionJustBeforeAnythingHappened v) (desiredColumn v)
    (currentRegisterMode v) (recordedState v).

Definition set_cursorPosition (p : Position) (v : VimState) : VimState :=
  mkVimState (currentMode v) p (cursorStartPosition v)
    (cursorPositionJustBeforeAnythingHappened v) (desiredColumn v)
    (currentRegisterMode v) (recordedState v).

(* ================================================================= *)
(** ** Action registry and key matcher *)

(** The fields of [BaseAction] that the applicability tests read. *)
Record BaseAction := mkBaseAction {
  modes : list ModeName;
  keys : list string;
  mustBeFirstKey : bool;
  (** [this instanceof BaseOperator] *)
  isBaseOperator : bool
}.

(** [this.modes.indexOf(mode) === -1] *)
Definition modes_lack (ms : list ModeName) (m : ModeName) : bool :=
  negb (existsb (ModeName_eqb m) ms).

Definition isSome {A : Type} (o : option A) : bool :=
  match o with Some _ => true | None => false end.

Definition BaseAction_doesActionApply
    (this : BaseAction) (vimState : VimState) (keysPressed : list string) : bool :=
  if modes_lack (modes this) (currentMode vimState) then false
  else if negb (compareKeypressSequence (keys this) keysPressed) then false
  else if (Z.of_nat (List.length (actionsRun (recordedState vimState))) >? 0)
          && mustBeFirstKey this then false
  else if isBaseOperator this && isSome (operator (recordedState vimState)) then false
  else true.

Definition BaseAction_couldActionApply
    (this : BaseAction) (vimState : VimState) (keysPressed : list string) : bool :=
  if modes_lack (modes this) (currentMode vimState) then false
  else if negb (compareKeypressSequence
                  (firstn (List.length keysPressed) (keys this)) keysPressed)
    then false
  else if (Z.of_nat (List.length (actionsRun (recordedState vimState))) >? 0)
          && mustBeFirstKey this then false
  else if isBaseOperator this && isSome (operator (recordedState vimState)) then false
  else true.

(** A registered class: its name, the field values its constructor sets and
    the two applicability methods an instance answers with (the inherited
    ones or an override). *)
Record ActionClass := mkActionClass {
  className : string;
  base : BaseAction;
  doesActionApply : VimState -> list string -> bool;
  couldActionApply : VimState -> list string -> bool
}.

(** A class that inherits both tests from [BaseAction]. *)
Definition plainAction (name : string) (b : BaseAction) : ActionClass :=
  mkActionClass name b (BaseAction_doesActionApply b) (BaseAction_couldActionApply b).

Inductive KeypressState := WaitingOnKeys | NoPossibleMatch.

(** [BaseAction | KeypressState] *)
Inductive RelevantAction :=
  | TheAction (a : ActionInstance)
  | TheState (k : KeypressState).

(** [new type()] followed by the assignment of [keysPressed]. *)
Definition instantiate (type : ActionClass) (vimState : VimState) : ActionInstance :=
  mkActionInstance (className type) (actionKeys (recordedState vimState)).

(** The loop of [getRelevantAction] over the rest of [Actions.allActions],
    with the current value of [couldPotentiallyHaveMatch]. *)
Fixpoint getRelevantAction_loop
    (allActions : list ActionClass) (couldPotentiallyHaveMatch : bool)
    (keysPressed : list string) (vimState : VimState) : RelevantAction :=
  match allActions with
  | [] =>
      TheState (if couldPotentiallyHaveMatch then WaitingOnKeys else NoPossibleMatch)
  | thing :: rest =>
      if doesActionApply thing vimState keysPressed then
        TheAction (instantiate thing vimState)
      else
        getRelevantAction_loop rest
          (if couldActionApply thing vimState keysPressed then true
           else couldPotentiallyHaveMatch)
          keysPressed vimState
  end.

Definition getRelevantAction
    (allActions : list ActionClass) (keysPressed : list string)
    (vimState : VimState) : RelevantAction :=
  getRelevantAction_loop allActions false keysPressed vimState.

(** The matching protocol in the words of the specification: the first
    registered action that applies exactly, else whether any action could
    still apply. *)
Definition matchingProtocol
    (allActions : list ActionClass) (keysPressed : list string)
    (vimState : VimState) : RelevantAction :=
  match find (fun a => doesActionApply a vimState keysPressed) allActions with
  | Some a => TheAction (instantiate a vimState)
  | None =>
      if existsb (fun a => couldActionApply a vimState keysPressed) allActions
      then TheState WaitingOnKeys
      else TheState NoPossibleMatch
  end.

(** *** The two actions registered on the key [0] *)

Definition CommandNumber_base : BaseAction :=
  mkBaseAction [Normal; Visual; VisualLine] ["<number>"] false false.

(** [keysPressed[0] === "0"] *)
Definition firstKeyIsZero (keysPressed : list string) : bool :=
  match nth_error keysPressed 0 with
  | Some k => String.eqb k "0"
  | None => false
  end.

Definition CommandNumber : ActionClass :=
  mkActionClass "CommandNumber" CommandNumber_base
    (fun vimState keysPressed =>
       let isZero := firstKeyIsZero keysPressed in
       BaseAction_doesActionApply CommandNumber_base vimState keysPressed
       && ((isZero && (count (recordedState vimState) >? 0)) || negb isZero))
    (fun vimState keysPressed =>
       let isZero := firstKeyIsZero keysPressed in
       BaseAction_couldActionApply CommandNumber_base vimState keysPressed
       && ((isZero && (count (recordedState vimState) >? 0)) || negb isZero)).

(** The modes every [BaseMovement] starts with. *)
Definition BaseMovement_modes : list ModeName :=
  [Normal; Visual; VisualLine; VisualBlock].

Definition MoveLineBegin_base : BaseAction :=
  mkBaseAction BaseMovement_modes ["0"] false false.

Definition MoveLineBegin : ActionClass :=
  mkActionClass "MoveLineBegin" MoveLineBegin_base
    (fun vimState keysPressed =>
       BaseAction_doesActionApply MoveLineBegin_base vimState keysPressed
       && (count (recordedState vimState) =? 0))
    (fun vimState keysPressed =>
       BaseAction_couldActionApply MoveLineBegin_base vimState keysPressed
       && (count (recordedState vimState) =? 0)).

(* ================================================================= *)
(** ** The text buffer and the position facade *)

(** The buffer is the list of its lines, without their line breaks. *)
Definition Document := list string.

(** Modelled from the spec: [TextEditor.getLineCount] of [textEditor.ts],
    which is not part of the sources at hand ("read line count"). *)
Definition TextEditor_getLineCount (doc : Document) : Z :=
  Z.of_nat (List.length doc).

(** Modelled from the spec: [TextEditor.getLineAt(position).text] ("read a
    line's text by index"); [None] where the host editor raises, on a line
    outside the buffer. *)
Definition TextEditor_getLineAt (doc : Document) (position : Position) : option string :=
  if line position <? 0 then None
  else nth_error doc (Z.to_nat (line position)).

(** Modelled from the spec: [Position.getLineLength] of
    [motion/position.ts], which is not part of the sources at hand; a line
    outside the buffer counts as empty. *)
Definition Position_getLineLength (doc : Document) (l : Z) : Z :=
  match TextEditor_getLineAt doc (mkPosition l 0) with
  | Some text => JS.length text
  | None => 0
  end.

(** Modelled from the spec: [Position.getLineBegin] ("line begin"). *)
Definition getLineBegin (p : Position) : Position :=
  mkPosition (line p) 0.

(** Modelled from the spec: [Position.getLineEnd] ("line end"; "character
    may equal line length to denote end-of-line"). *)
Definition getLineEnd (doc : Document) (p : Position) : Position :=
  mkPosition (line p) (Position_getLineLength doc (line p)).

(** Modelled from the spec: [Position.isLineEnd], the end-of-line slot or
    beyond. *)
Definition isLineEnd (doc : Document) (p : Position) : bool :=
  character p >=? Position_getLineLength doc (line p).

(** Modelled from the spec: [Position.getRight], one column right without
    crossing the line boundary. *)
Definition getRight (doc : Document) (p : Position) : Position :=
  if isLineEnd doc p then p else mkPosition (line p) (character p + 1).

(** Modelled from the spec: [Position.getLeft], one column left without
    crossing the line boundary. *)
Definition getLeft (p : Position) : Position :=
  if character p =? 0 then p else mkPosition (line p) (character p - 1).

(** Modelled from the spec: [Position.getDown(desiredColumn)], the line
    directly below with the column "clamped to each line's length"; the
    last line has none below and the position stays. *)
Definition getDown (doc : Document) (p : Position) (desiredColumn : Z) : Position :=
  if line p <? TextEditor_getLineCount doc - 1 then
    mkPosition (line p + 1)
      (Z.min (Position_getLineLength doc (line p + 1)) desiredColumn)
  else p.

(** Modelled from the spec: [Position.getPreviousLineBegin], the begin of
    the line above, of the line itself on the first line. *)
Definition getPreviousLineBegin (p : Position) : Position :=
  if line p =? 0 then getLineBegin p else mkPosition (line p - 1) 0.

(** Modelled from the spec: [Position.getRightThroughLineBreaks], one
    column right "crossing line boundaries". *)
Definition getRightThroughLineBreaks (doc : Document) (p : Position) : Position :=
  if isLineEnd doc p then
    if line p <? TextEditor_getLineCount doc - 1
    then mkPosition (line p + 1) 0 else p
  else mkPosition (line p) (character p + 1).

(** [compareTo] of the host's position type: negative, zero or positive. *)
Definition Position_compareTo (p other : Position) : Z :=
  if line p <? line other then -1
  else if line p >? line other then 1
  else if character p <? character other then -1
  else if character p >? character other then 1
  else 0.

(** Modelled from the spec: [Position.EarlierOf]. *)
Definition Position_EarlierOf (p1 p2 : Position) : Position :=
  if Position_compareTo p1 p2 <? 0 then p1 else p2.

(* ================================================================= *)
(** ** The session: interpreter state, buffer and registers *)

(** What a register holds: its text and how the text was taken. *)
Definition Registers := list (string * (string * RegisterMode)).

Record World := mkWorld {
  vim : VimState;
  document : Document;
  registers : Registers
}.

Definition set_vim (v : VimState) (w : World) : World :=
  mkWorld v (document w) (registers w).

Definition set_document (d : Document) (w : World) : World :=
  mkWorld (vim w) d (registers w).

(** Modelled from the spec: [Register.put] of [register/register.ts], which
    is not part of the sources at hand: the text is "written to the target
    register"; the newest entry of a name is the one in force. *)
Definition Register_put (text : string) (vimState : VimState) (w : World) : World :=
  mkWorld (vim w) (document w)
    ((registerName (recordedState vimState), (text, currentRegisterMode vimState))
       :: registers w).

(** [text.slice(0, -1)] *)
Fixpoint slice_0_m1 (text : string) : string :=
  match text with
  | EmptyString => EmptyString
  | String c EmptyString => EmptyString
  | String c rest => String c (slice_0_m1 rest)
  end.

(* ================================================================= *)
(** ** Operators *)

(** The range [DeleteOperator.delete] reads and deletes: the statements of
    [delete] up to the call of [getText].  [None] when the line of [end]
    is outside the buffer and [TextEditor.getLineAt] raises. *)
Definition DeleteOperator_range
    (doc : Document) (start end_ : Position) (registerMode : RegisterMode)
    : option (Position * Position) :=
  let start :=
    if RegisterMode_eqb registerMode LineWise then getLineBegin start else start in
  let end_ :=
    if RegisterMode_eqb registerMode LineWise then getLineEnd doc end_ else end_ in
  let end_ := mkPosition (line end_) (character end_ + 1) in
  let isOnLastLine := line end_ =? TextEditor_getLineCount doc - 1 in
  match TextEditor_getLineAt doc end_ with
  | None => None
  | Some lineAtEnd =>
      let end_ :=
        if character end_ =? JS.length lineAtEnd + 1 then getDown doc end_ 0
        else end_ in
      let start :=
        if isOnLastLine && negb (line start =? 0)
           && RegisterMode_eqb registerMode LineWise
        then getLineEnd doc (getPreviousLineBegin start)
        else start in
      Some (start, end_)
  end.

Section HostEditor.

(** The two buffer primitives of the host editor the operators call:
    [getText(new vscode.Range(start, end))] and
    [TextEditor.delete(new vscode.Range(start, end))]. *)
Variable TextEditor_getText : Document -> Position -> Position -> string.
Variable TextEditor_delete : Document -> Position -> Position -> Document.

(** [DeleteOperator.delete]; the resulting position and the new session,
    [None] when a line lookup raises. *)
Definition DeleteOperator_delete
    (start end_ : Position) (currentMode : ModeName) (registerMode : RegisterMode)
    (vimState : VimState) (yank : bool) (w : World) : option (Position * World) :=
  match DeleteOperator_range (document w) start end_ registerMode with
  | None => None
  | Some (start, end_) =>
      let text := TextEditor_getText (document w) start end_ in
      let text :=
        if RegisterMode_eqb registerMode LineWise then slice_0_m1 text else text in
      let w := if yank then Register_put text vimState w else w in
      let w := set_document (TextEditor_delete (document w) start end_) w in
      (* assigned in Visual mode, and overwritten by the test that follows *)
      let resultingPosition : option Position :=
        if ModeName_eqb currentMode Visual
        then Some (Position_EarlierOf start end_) else None in
      match TextEditor_getLineAt (document w) start with
      | None => None
      | Some lineAtStart =>
          let resultingPosition :=
            if character start >=? JS.length lineAtStart
            then getLeft start else start in
          let resultingPosition :=
            if RegisterMode_eqb registerMode LineWise
            then getLineBegin resultingPosition else resultingPosition in
          Some (resultingPosition, w)
      end
  end.

(** [YankOperator.run]; the session after the yank (its [vim] is the
    state the method returns), [None] when the line lookup raises. *)
Definition YankOperator_run
    (start end_ : Position) (w : World) : option World :=
  let vimState := vim w in
  let originalMode := currentMode vimState in
  let '(start, end_) :=
    if Position_compareTo start end_ <=? 0 then
      (start, mkPosition (line end_) (character end_ + 1))
    else
      let tmp := start in
      let start := end_ in
      let end_ := tmp in
      (start, mkPosition (line end_) (character end_ + 1)) in
  let text := TextEditor_getText (document w) start end_ in
  let text' : option string :=
    if ModeName_eqb (currentMode vimState) Visual then
      match TextEditor_getLineAt (document w) end_ with
      | None => None
      | Some lineAtEnd =>
          if character end_ =? JS.length lineAtEnd + 1
          then Some (text ++ String "010"%char EmptyString)%string
          else Some text
      end
    else Some text in
  match text' with
  | None => None
  | Some text =>
      let w := Register_put text vimState w in
      let vimState := set_currentMode Normal vimState in
      let vimState :=
        if ModeName_eqb originalMode Normal
        then set_cursorPosition (cursorPositionJustBeforeAnythingHappened vimState) vimState
        else set_cursorPosition start vimState in
      Some (set_vim vimState w)
  end.

End HostEditor.

(* ================================================================= *)
(** ** Movements *)

(** A movement step reads the session and may write to it (the vertical
    movements set [currentRegisterMode], the screen-line movements drive the
    host editor). *)
Definition Step := Position -> World -> MoveResult * World.

Definition clampCount (count : Z) : Z :=
  if count <? 1 then 1
  else if count >? 99999 then 99999
  else count.

Section BaseMovement.

Variable execAction : Step.
Variable execActionForOperator : Step.

(** The single step the loop of [execActionWithCount] takes at index [i]:
    the operator variant on the last iteration of a pending operator. *)
Definition temporaryResult_at (i count : Z) (position : Position) (w : World)
    : MoveResult * World :=
  let lastIteration := i =? count - 1 in
  if isSome (operator (recordedState (vim w))) && lastIteration
  then execActionForOperator position w
  else execAction position w.

(** The [for] loop of [BaseMovement.execActionWithCount]: [remaining]
    iterations are left, [i] is the loop index. *)
Fixpoint execActionWithCount_loop
    (remaining : nat) (i count : Z) (position : Position) (result : MoveResult)
    (w : World) : MoveResult * World :=
  match remaining with
  | O => (result, w)
  | S remaining' =>
      let firstIteration := i =? 0 in
      let lastIteration := i =? count - 1 in
      let '(temporaryResult, w) := temporaryResult_at i count position w in
      match temporaryResult with
      | APosition p =>
          execActionWithCount_loop remaining' (i + 1) count p (APosition p) w
      | AMovement t =>
          let result :=
            match result with
            | APosition _ =>
                mkIMovement (mkPosition 0 0) (mkPosition 0 0) (Some false) None
            | AMovement r => r
            end in
          let result :=
            mkIMovement (start result) (stop result)
              (JS.or (failed result) (failed t)) (registerMode result) in
          let result :=
            if firstIteration
            then mkIMovement (start t) (stop result) (failed result) (registerMode result)
            else result in
          if lastIteration then
            execActionWithCount_loop remaining' (i + 1) count position
              (AMovement (mkIMovement (start result) (stop t) (failed result)
                            (registerMode result))) w
          else
            execActionWithCount_loop remaining' (i + 1) count
              (getRightThroughLineBreaks (document w) (stop t))
              (AMovement result) w
      end
  end.

Definition BaseMovement_execActionWithCount
    (position : Position) (w : World) (count : Z) : MoveResult * World :=
  let result := APosition (mkPosition 0 0) in
  let count := clampCount count in
  execActionWithCount_loop (Z.to_nat count) 0 count position result w.

(** The results the iterations of the loop produce, in order: the values
    [temporaryResult] takes, with the position threaded as the loop does. *)
Fixpoint temporaryResults
    (remaining : nat) (i count : Z) (position : Position) (w : World)
    : list MoveResult :=
  match remaining with
  | O => []
  | S remaining' =>
      let '(temporaryResult, w) := temporaryResult_at i count position w in
      temporaryResult ::
      match temporaryResult with
      | APosition p => temporaryResults remaining' (i + 1) count p w
      | AMovement t =>
          temporaryResults remaining' (i + 1) count
            (if i =? count - 1 then position
             else getRightThroughLineBreaks (document w) (stop t)) w
      end
  end.

Definition iterationResults (position : Position) (w : World) (count : Z)
    : list MoveResult :=
  temporaryResults (Z.to_nat (clampCount count)) 0 (clampCount count) position w.

End BaseMovement.

(** A movement class, as far as running it with a count goes. *)
Record Movement := mkMovement {
  movementName : string;
  execActionWithCount : Position -> World -> Z -> MoveResult * World
}.

(** A movement that overrides [execAction] and, possibly,
    [execActionForOperator], and inherits the counted loop. *)
Definition inheritsCount (name : string) (execAction execActionForOperator : Step)
    : Movement :=
  mkMovement name
    (BaseMovement_execActionWithCount execAction execActionForOperator).

(** [MoveLineEnd], the key [$]. *)
Definition MoveLineEnd_execAction : Step :=
  fun position w => (APosition (getLineEnd (document w) position), w).

Definition MoveLineEnd : Movement :=
  inheritsCount "MoveLineEnd" MoveLineEnd_execAction MoveLineEnd_execAction.

(** [MoveToColumn], the key [|]: [execActionWithCount] is overridden. *)
Definition MoveToColumn_execActionWithCount
    (position : Position) (w : World) (count : Z) : MoveResult * World :=
  (APosition (mkPosition (line position) (Z.max 0 (count - 1))), w).

Definition MoveToColumn : Movement :=
  mkMovement "MoveToColumn" MoveToColumn_execActionWithCount.

(** [MoveNonBlankLast], the key [G]: [execActionWithCount] is overridden. *)
Definition MoveNonBlankLast_execActionWithCount
    (position : Position) (w : World) (count : Z) : MoveResult * World :=
  let stop :=
    if count =? 0 then mkPosition (TextEditor_getLineCount (document w) - 1) 0
    else mkPosition (count - 1) 0 in
  (AMovement (mkIMovement (cursorStartPosition (vim w)) stop None (Some LineWise)), w).

Definition MoveNonBlankLast : Movement :=
  mkMovement "MoveNonBlankLast" MoveNonBlankLast_execActionWithCount.

(* ----------------------------------------------------------------- *)
(** *** Find and till *)

(** Modelled from the spec: the test of one column against the "target
    character", [text[index] === char]; [char] is [None] when the key is
    missing. *)
Definition isCharAt (text : string) (char : option string) (index : Z) : bool :=
  if index <? 0 then false
  else
    match String.get (Z.to_nat index) text, char with
    | Some c, Some char => String.eqb (String c EmptyString) char
    | _, _ => false
    end.

(** Modelled from the spec: the columns of a line, left to right. *)
Definition columns (text : string) : list Z :=
  map Z.of_nat (seq 0 (String.length text)).

(** Modelled from the spec: the occurrences a forward scan meets, the
    columns right of [from] that hold [char], nearest first. *)
Definition occurrencesAfter (text : string) (char : option string) (from : Z) : list Z :=
  filter (fun i => (from <? i) && isCharAt text char i) (columns text).

(** Modelled from the spec: the occurrences a backward scan meets, the
    columns left of [from] that hold [char], nearest first. *)
Definition occurrencesBefore (text : string) (char : option string) (from : Z) : list Z :=
  rev (filter (fun i => (i <? from) && isCharAt text char i) (columns text)).

(** Modelled from the spec: the text of "the current line", empty outside
    the buffer. *)
Definition lineText (doc : Document) (p : Position) : string :=
  match TextEditor_getLineAt doc p with
  | Some text => text
  | None => EmptyString
  end.

(** Modelled from the spec: "the Nth occurrence", none "if fewer than N
    occurrences exist". *)
Definition nthOccurrence (p : Position) (found : list Z) (count : Z) : option Position :=
  if count <? 1 then None
  else option_map (mkPosition (line p)) (nth_error found (Z.to_nat (count - 1))).

(** Modelled from the spec: [Position.findForwards] of
    [motion/position.ts], which is not part of the sources at hand: "scan
    the current line only, forward or backward, for the Nth occurrence of a
    target character; fail (return none) if fewer than N occurrences exist
    before end/start of line". *)
Definition findForwards
    (doc : Document) (p : Position) (char : option string) (count : Z) : option Position :=
  nthOccurrence p (occurrencesAfter (lineText doc p) char (character p)) count.

(** Modelled from the spec: [Position.findBackwards], as [findForwards]. *)
Definition findBackwards
    (doc : Document) (p : Position) (char : option string) (count : Z) : option Position :=
  nthOccurrence p (occurrencesBefore (lineText doc p) char (character p)) count.

(** Modelled from the spec: [Position.tilForwards]: the column before the
    character [findForwards] finds. *)
Definition tilForwards
    (doc : Document) (p : Position) (char : option string) (count : Z) : option Position :=
  option_map (fun r => mkPosition (line r) (character r - 1))
    (findForwards doc p char count).

(** Modelled from the spec: [Position.tilBackwards]: the column after the
    character [findBackwards] finds. *)
Definition tilBackwards
    (doc : Document) (p : Position) (char : option string) (count : Z) : option Position :=
  option_map (fun r => mkPosition (line r) (character r + 1))
    (findBackwards doc p char count).

(** [count || 1] *)
Definition countOr1 (count : Z) : Z := if count =? 0 then 1 else count.

(** [{ start: position, stop: position, failed: true }] *)
Definition failure (position : Position) : IMovement :=
  mkIMovement position position (Some true) None.

Definition MoveFindForward_execActionWithCount (this : ActionInstance)
    (position : Position) (w : World) (count : Z) : MoveResult * World :=
  let count := countOr1 count in
  let toFind := nth_error (keysPressed this) 1 in
  match findForwards (document w) position toFind count with
  | None => (AMovement (failure position), w)
  | Some result =>
      let result :=
        if isSome (operator (recordedState (vim w)))
        then getRight (document w) result else result in
      (APosition result, w)
  end.

Definition MoveFindBackward_execActionWithCount (this : ActionInstance)
    (position : Position) (w : World) (count : Z) : MoveResult * World :=
  let count := countOr1 count in
  let toFind := nth_error (keysPressed this) 1 in
  match findBackwards (document w) position toFind count with
  | None => (AMovement (failure position), w)
  | Some result => (APosition result, w)
  end.

Definition MoveTilForward_execActionWithCount (this : ActionInstance)
    (position : Position) (w : World) (count : Z) : MoveResult * World :=
  let count := countOr1 count in
  let toFind := nth_error (keysPressed this) 1 in
  match tilForwards (document w) position toFind count with
  | None => (AMovement (failure position), w)
  | Some result =>
      let result :=
        if isSome (operator (recordedState (vim w)))
        then getRight (document w) result else result in
      (APosition result, w)
  end.

Definition MoveTilBackward_execActionWithCount (this : ActionInstance)
    (position : Position) (w : World) (count : Z) : MoveResult * World :=
  let count := countOr1 count in
  let toFind := nth_error (keysPressed this) 1 in
  match tilBackwards (document w) position toFind count with
  | None => (AMovement (failure position), w)
  | Some result => (APosition result, w)
  end.

(** The four character movements, by key. *)
Inductive FindKind := Find_f | Find_F | Find_t | Find_T.

Definition findMovement (k : FindKind) (this : ActionInstance) : Movement :=
  match k with
  | Find_f => mkMovement "MoveFindForward" (MoveFindForward_execActionWithCount this)
  | Find_F => mkMovement "MoveFindBackward" (MoveFindBackward_execActionWithCount this)
  | Find_t => mkMovement "MoveTilForward" (MoveTilForward_execActionWithCount this)
  | Find_T => mkMovement "MoveTilBackward" (MoveTilBackward_execActionWithCount this)
  end.

(** The occurrences of the target in the scan direction of each. *)
Definition occurrencesInDirection
    (k : FindKind) (text : string) (char : option string) (from : Z) : list Z :=
  match k with
  | Find_f | Find_t => occurrencesAfter text char from
  | Find_F | Find_T => occurrencesBefore text char from
  end.

(* ----------------------------------------------------------------- *)
(** *** Word movements *)

Section WordMovements.

(** The word algorithms of [motion/position.ts], which is not part of the
    sources at hand: the movements are stated over any of them. *)
Variable getWordRight : Document -> Position -> Position.
Variable getBigWordRight : Document -> Position -> Position.
Variable getCurrentWordEnd : Document -> Position -> Position.
Variable getCurrentBigWordEnd : Document -> Position -> Position.
Variable isFirstWordOfLine : Document -> Position -> bool.

(** [MoveWordBegin.execAction], the key [w]. *)
Definition MoveWordBegin_execAction (position : Position) (w : World) : Position :=
  if instanceof_ChangeOperator (operator (recordedState (vim w))) then
    getRight (document w) (getCurrentWordEnd (document w) position)
  else
    getWordRight (document w) position.

(** [MoveWordBegin.execActionForOperator] *)
Definition MoveWordBegin_execActionForOperator
    (position : Position) (w : World) : Position :=
  let result := MoveWordBegin_execAction position w in
  if (line result >? line position + 1)
     || ((line result =? line position + 1) && isFirstWordOfLine (document w) result)
  then getLineEnd (document w) position
  else if isLineEnd (document w) result
  then mkPosition (line result) (character result + 1)
  else result.

(** [MoveFullWordBegin.execAction], the key [W]. *)
Definition MoveFullWordBegin_execAction (position : Position) (w : World) : Position :=
  if instanceof_ChangeOperator (operator (recordedState (vim w))) then
    getRight (document w) (getCurrentBigWordEnd (document w) position)
  else
    getBigWordRight (document w) position.

(** [MoveWordEnd], the key [e]. *)
Definition MoveWordEnd_execAction (position : Position) (w : World) : Position :=
  getCurrentWordEnd (document w) position.


(** [MoveFullWordEnd], the key [E]. *)
Definition MoveFullWordEnd_execAction (position : Position) (w : World) : Position :=
  getCurrentBigWordEnd (document w) position.


(** The movements as steps of the counted loop. *)
Definition asStep (f : Position -> World -> Position) : Step :=
  fun position w => (APosition (f position w), w).

Definition MoveWordBegin : Movement :=
  inheritsCount "MoveWordBegin"
    (asStep MoveWordBegin_execAction) (asStep MoveWordBegin_execActionForOperator).

Definition MoveFullWordBegin : Movement :=
  inheritsCount "MoveFullWordBegin"
    (asStep MoveFullWordBegin_execAction) (asStep MoveFullWordBegin_execAction).

End WordMovements.

(* ----------------------------------------------------------------- *)
(** *** A word model *)

(** Modelled from the spec: the word algorithms of [motion/position.ts],
    which is not part of the sources at hand, over the three character
    classes a word is a run of ("word-char | punctuation | whitespace"). *)
Inductive CharClass := Blank | WordChar | Punctuation.

Definition CharClass_eqb (a b : CharClass) : bool :=
  match a, b with
  | Blank, Blank | WordChar, WordChar | Punctuation, Punctuation => true
  | _, _ => false
  end.

Definition isBlank (c : ascii) : bool :=
  let n := nat_of_ascii c in (Nat.eqb n 32 || Nat.eqb n 9)%bool.

Definition isWordChar (c : ascii) : bool :=
  let n := nat_of_ascii c in
  ((Nat.leb 48 n && Nat.leb n 57) || (Nat.leb 65 n && Nat.leb n 90)
   || (Nat.leb 97 n && Nat.leb n 122) || Nat.eqb n 95)%bool.

(** Modelled from the spec: word classes, "word-char | punctuation |
    whitespace". *)
Definition wordClass (c : ascii) : CharClass :=
  if isBlank c then Blank else if isWordChar c then WordChar else Punctuation.


(** The number of leading characters of [text] that satisfy [f]. *)
Fixpoint spanLength (f : ascii -> bool) (text : string) : nat :=
  match text with
  | String c rest => if f c then S (spanLength f rest) else O
  | EmptyString => O
  end.

(** The rest of [text] from column [n] on. *)
Fixpoint dropChars (n : nat) (text : string) : string :=
  match n, text with
  | S n', String _ rest => dropChars n' rest
  | _, _ => text
  end.

Section WordModel.

Variable classOf : ascii -> CharClass.

Definition inClass (k : CharClass) (c : ascii) : bool := CharClass_eqb (classOf c) k.

(** Modelled from the spec: where a word movement lands below its line,
    the first following line that is empty or has a non-blank character,
    with the column of that character; [lineNo] is the number of the head
    of [rest]. *)
Fixpoint nextWordStart (rest : list string) (lineNo : Z) : option Position :=
  match rest with
  | [] => None
  | text :: rest' =>
      let blanks := spanLength (inClass Blank) text in
      if (Nat.eqb (String.length text) 0 || Nat.ltb blanks (String.length text))%bool
      then Some (mkPosition lineNo (Z.of_nat blanks))
      else nextWordStart rest' (lineNo + 1)
  end.

(** Modelled from the spec: [Position.getWordRight] and
    [Position.getBigWordRight]: the start of the next run of one character
    class, through blanks and line ends; "stopping at end-of-document must
    return the current position unchanged". *)
Definition wordRight (doc : Document) (p : Position) : Position :=
  let text := lineText doc p in
  let col := Z.to_nat (character p) in
  let here := dropChars col text in
  let run :=
    match here with
    | String c _ =>
        if inClass Blank c then O else spanLength (inClass (classOf c)) here
    | EmptyString => O
    end in
  let blanks := spanLength (inClass Blank) (dropChars run here) in
  if Nat.ltb (col + run + blanks) (String.length text) then
    mkPosition (line p) (Z.of_nat (col + run + blanks))
  else
    match nextWordStart (skipn (Z.to_nat (line p) + 1) doc) (line p + 1) with
    | Some q => q
    | None => p
    end.

(** Modelled from the spec: [Position.getCurrentWordEnd] and
    [Position.getCurrentBigWordEnd]: the last character of the run the
    position is in, of the next run when the position is on a blank; the
    position itself when no run follows. *)
Definition currentWordEnd (doc : Document) (p : Position) : Position :=
  let text := lineText doc p in
  let col := Z.to_nat (character p) in
  let here := dropChars col text in
  let blanks := spanLength (inClass Blank) here in
  let endOfRun (q : Position) : Position :=
    match dropChars (Z.to_nat (character q)) (lineText doc q) with
    | String c rest =>
        mkPosition (line q)
          (character q + Z.of_nat (spanLength (inClass (classOf c)) rest))
    | EmptyString => q
    end in
  if Nat.ltb (col + blanks) (String.length text) then
    endOfRun (mkPosition (line p) (Z.of_nat (col + blanks)))
  else
    match nextWordStart (skipn (Z.to_nat (line p) + 1) doc) (line p + 1) with
    | Some q => endOfRun q
    | None => p
    end.

(** Modelled from the spec: [Position.isFirstWordOfLine]: the position is
    on the first non-blank column of its line. *)
Definition firstWordOfLine (doc : Document) (p : Position) : bool :=
  let text := lineText doc p in
  let blanks := spanLength (inClass Blank) text in
  character p =? (if Nat.ltb blanks (String.length text) then Z.of_nat blanks else 0).

End WordModel.

(* ================================================================= *)
(** ** The comparison rule in the words of the specification *)

(** [t] occurs in [s], at some column. *)
Definition occursIn (t s : string) : Prop :=
  exists m : nat, substring m (String.length t) s = t.

(** A control-key token: one that carries the name of an arrow key, of a
    ctrl, alt or shift modifier, of escape or of delete. *)
Definition isControlKeyToken (s : string) : Prop :=
  exists k, In k controlKeys /\ occursIn k s.

Definition decimalDigits : list string :=
  [ "0"; "1"; "2"; "3"; "4"; "5"; "6"; "7"; "8"; "9" ].

(** A single decimal digit. *)
Definition isDecimalDigit (s : string) : Prop := In s decimalDigits.

(** The rule for one position of two key sequences. *)
Definition tokensMatch (l r : string) : Prop :=
  l = "<any>" \/ r = "<any>"
  \/ (l = "<number>" /\ isDecimalDigit r)
  \/ (r = "<number>" /\ isDecimalDigit l)
  \/ (l = "<character>" /\ ~ isControlKeyToken r)
  \/ (r = "<character>" /\ ~ isControlKeyToken l)
  \/ l = r.

(* ================================================================= *)
(** ** Ranges produced by the counted loop *)

(** [MoveIndent.execAction], the key [>] after [>]: a range result. *)
Definition MoveIndent_execAction : Step :=
  fun position w =>
    (AMovement (mkIMovement (getLineBegin position)
                  (getLineEnd (document w) position) None None), w).

Definition MoveIndent : Movement :=
  inheritsCount "MoveIndent" MoveIndent_execAction MoveIndent_execAction.

(** The range the loop updates when an iteration yields a range: the one
    it holds, or a fresh one when it still holds a position. *)
Definition heldRange (result : MoveResult) : IMovement :=
  match result with
  | APosition _ => mkIMovement (mkPosition 0 0) (mkPosition 0 0) (Some false) None
  | AMovement r => r
  end.

(** The [failed] flag an iteration reports; a position reports none. *)
Definition failedOf (r : MoveResult) : option bool :=
  match r with
  | APosition _ => None
  | AMovement t => failed t
  end.

(** The law of the specification for a movement run with a count: count 0
    runs as count 1, and any count above 99999 as 99999. *)
Definition countLaw (m : Movement) (p : Position) (w : World) : Prop :=
  execActionWithCount m p w 0 = execActionWithCount m p w 1
  /\ forall c, 99999 < c -> execActionWithCount m p w c = execActionWithCount m p w 99999.

(* ================================================================= *)
(** ** Registration, and the count typed as a prefix *)

(** [RegisterAction]: the decorator pushes the class, with an instance of
    it, onto the end of [Actions.allActions]. *)
Definition RegisterAction (allActions : list ActionClass) (action : ActionClass)
    : list ActionClass :=
  allActions ++ [action].

(** The three wildcard tokens of a key sequence. *)
Definition isWildcardToken (s : string) : Prop :=
  s = "<any>" \/ s = "<number>" \/ s = "<character>".

Definition set_count (n : Z) (v : VimState) : VimState :=
  mkVimState (currentMode v) (cursorPosition v) (cursorStartPosition v)
    (cursorPositionJustBeforeAnythingHappened v) (desiredColumn v)
    (currentRegisterMode v)
    (mkRecordedState n (operator (recordedState v)) (registerName (recordedState v))
       (actionsRun (recordedState v)) (actionKeys (recordedState v))).

Definition isDigitChar (c : ascii) : bool :=
  let n := nat_of_ascii c in (Nat.leb 48 n && Nat.leb n 57)%bool.

Definition digitValue (c : ascii) : Z := Z.of_nat (nat_of_ascii c) - 48.

(** The white space [parseInt] skips, among the ASCII characters. *)
Definition isWhiteSpace (c : ascii) : bool :=
  let n := nat_of_ascii c in
  ((Nat.leb 9 n && Nat.leb n 13) || Nat.eqb n 32)%bool.

(** The leading decimal digits of [s], read left to right onto [acc];
    [seen] tells whether a digit has been read. *)
Fixpoint parseDigits (acc : Z) (seen : bool) (s : string) : option Z :=
  match s with
  | String c rest =>
      if isDigitChar c then parseDigits (10 * acc + digitValue c) true rest
      else if seen then Some acc else None
  | EmptyString => if seen then Some acc else None
  end.

Fixpoint skipWhiteSpace (s : string) : string :=
  match s with
  | String c rest => if isWhiteSpace c then skipWhiteSpace rest else s
  | EmptyString => s
  end.

(** A number of the interpreter is an IEEE-754 double.  Those met here
    are integers, and an integer is a double when 53 bits hold its
    significant digits: [roundToDouble n] is the double nearest to the
    integer [n], a tie going to the even significand. *)
Definition roundToDouble (n : Z) : Z :=
  let a := Z.abs n in
  if a <? 2 ^ 53 then n
  else
    let e := Z.log2 a - 52 in
    let q := Z.shiftr a e in
    let r := a - Z.shiftl q e in
    let half := Z.shiftl 1 (e - 1) in
    let q := if (r >? half) || ((r =? half) && Z.odd q) then q + 1 else q in
    Z.sgn n * Z.shiftl q e.

(** The number an integer result is stored as; [None] when it is beyond
    the doubles and stored as an infinity. *)
Definition Number_of (n : Z) : option Z :=
  let d := roundToDouble n in
  if Z.abs d <? 2 ^ 1024 then Some d else None.

(** [parseInt(s, 10)] on ASCII text: white space, a sign, the leading
    digits, and the double nearest to the integer they write; [None] is
    [NaN] or an infinity. *)
Definition parseInt10 (s : string) : option Z :=
  let mathInt :=
    match skipWhiteSpace s with
    | String "-"%char rest => option_map Z.opp (parseDigits 0 false rest)
    | String "+"%char rest => parseDigits 0 false rest
    | rest => parseDigits 0 false rest
    end in
  match mathInt with
  | Some n => Number_of n
  | None => None
  end.

(** [CommandNumber.exec]: the count takes the digit, the product and the
    sum each rounded to a double.  [None] when the key is missing or no
    number, or the count would be [NaN] or an infinity. *)
Definition CommandNumber_exec (this : ActionInstance) (position : Position) (w : World)
    : option World :=
  match nth_error (keysPressed this) 0 with
  | None => None
  | Some key =>
      match parseInt10 key with
      | None => None
      | Some number =>
          let vimState := vim w in
          match Number_of (count (recordedState vimState) * 10) with
          | None => None
          | Some product =>
              match Number_of (product + number) with
              | None => None
              | Some sum => Some (set_vim (set_count sum vimState) w)
              end
          end
      end
  end.

(** A count typed key by key: each key is offered to [CommandNumber] and
    run when it applies; [None] as soon as one does not. *)
Fixpoint typeCount (typed : list string) (position : Position) (w : World)
    : option World :=
  match typed with
  | [] => Some w
  | key :: rest =>
      if doesActionApply CommandNumber (vim w) [key] then
        match CommandNumber_exec (mkActionInstance "CommandNumber" [key]) position w with
        | Some w' => typeCount rest position w'
        | None => None
        end
      else None
  end.

(* ================================================================= *)
(** ** Commands *)

(** The loop of [BaseCommand.execCount], [remaining] turns from the end:
    each turn runs [exec] at the position the command was given. *)
Fixpoint execCount_loop
    (remaining : nat) (exec : Position -> World -> World)
    (position : Position) (w : World) : World :=
  match remaining with
  | O => w
  | S remaining' => execCount_loop remaining' exec position (exec position w)
  end.

(** [BaseCommand.execCount] *)
Definition BaseCommand_execCount
    (canBePrefixedWithCount : bool) (exec : Position -> World -> World)
    (position : Position) (w : World) : World :=
  let timesToRepeat :=
    if canBePrefixedWithCount then countOr1 (count (recordedState (vim w))) else 1 in
  execCount_loop (Z.to_nat timesToRepeat) exec position w.

Definition set_cursorStartPosition (p : Position) (v : VimState) : VimState :=
  mkVimState (currentMode v) (cursorPosition v) p
    (cursorPositionJustBeforeAnythingHappened v) (desiredColumn v)
    (currentRegisterMode v) (recordedState v).

(** A command as the interpreter runs it: what the matcher sees and what
    [exec] does. *)
Record Command := mkCommand {
  action : ActionClass;
  exec : Position -> World -> World
}.

Definition setsMode (m : ModeName) : Position -> World -> World :=
  fun position w => set_vim (set_currentMode m (vim w)) w.

Definition commandClass (name : string) (ms : list ModeName) (ks : list string)
    : ActionClass :=
  plainAction name (mkBaseAction ms ks false false).

(** [CommandExitVisualMode], [CommandVisualMode], [CommandVisualLineMode]
    and [CommandExitVisualLineMode], in the order they are registered. *)
Definition CommandExitVisualMode : Command :=
  mkCommand (commandClass "CommandExitVisualMode" [Visual; VisualLine] ["v"])
    (setsMode Normal).

Definition CommandVisualMode : Command :=
  mkCommand (commandClass "CommandVisualMode" [Normal] ["v"]) (setsMode Visual).

Definition CommandVisualLineMode : Command :=
  mkCommand (commandClass "CommandVisualLineMode" [Normal; Visual] ["V"])
    (setsMode VisualLine).

Definition CommandExitVisualLineMode : Command :=
  mkCommand (commandClass "CommandExitVisualLineMode" [VisualLine] ["V"])
    (setsMode Normal).

Definition visualModeCommands : list Command :=
  [ CommandExitVisualMode; CommandVisualMode; CommandVisualLineMode;
    CommandExitVisualLineMode ].

(** The commands among [commands] that apply to the one key [key]. *)
Definition applicable (commands : list Command) (key : string) (w : World)
    : list Command :=
  filter (fun c => doesActionApply (action c) (vim w) [key]) commands.

(** One key pressed: the first command that applies is run. *)
Definition press (commands : list Command) (key : string) (position : Position)
    (w : World) : option World :=
  match applicable commands key w with
  | c :: _ => Some (exec c position w)
  | [] => None
  end.

(** [CommandGoToOtherEndOfHighlightedText.exec], the key [o] in the visual
    modes: cursor and anchor change places. *)
Definition CommandGoToOtherEndOfHighlightedText_exec
    (position : Position) (w : World) : World :=
  let vimState := vim w in
  set_vim
    (set_cursorPosition (cursorStartPosition vimState)
       (set_cursorStartPosition (cursorPosition vimState) vimState)) w.

(** [CommandMoveHalfPageDown.execAction]; [scroll] is
    [Configuration.getInstance().scroll]. *)
Definition CommandMoveHalfPageDown_execAction
    (scroll : Z) (position : Position) (w : World) : Position :=
  mkPosition
    (Z.min (TextEditor_getLineCount (document w) - 1) (line position + scroll))
    (character position).

(** [CommandMoveHalfPageUp.execAction] *)
Definition CommandMoveHalfPageUp_execAction
    (scroll : Z) (position : Position) (w : World) : Position :=
  mkPosition (Z.max 0 (line position - scroll)) (character position).

(* ----------------------------------------------------------------- *)
(** *** Joining lines *)

(** [s[s.length - 1]], [None] for [undefined]. *)
Fixpoint lastCharOf (s : string) : option ascii :=
  match s with
  | EmptyString => None
  | String c EmptyString => Some c
  | String _ rest => lastCharOf rest
  end.

(** [s[0]] *)
Definition firstCharOf (s : string) : option ascii :=
  match s with
  | EmptyString => None
  | String c _ => Some c
  end.

Definition isChar (o : option ascii) (c : ascii) : bool :=
  match o with
  | Some c' => Ascii.eqb c' c
  | None => false
  end.

(** [lineOne.length > 0 && " \t".indexOf(lineOne[lineOne.length - 1]) > -1] *)
Definition oneEndsWithWhitespace (lineOne : string) : bool :=
  (JS.length lineOne >? 0)
  && match lastCharOf lineOne with
     | Some c =>
         JS.indexOf (String " "%char (String "009"%char EmptyString))
           (String c EmptyString) >? -1
     | None => false
     end.

(** [lineOne[lineOne.length - 1] === '(' && lineTwo[0] === ')'] *)
Definition isParenthesisPair (lineOne lineTwo : string) : bool :=
  isChar (lastCharOf lineOne) "("%char && isChar (firstCharOf lineTwo) ")"%char.

Definition addSpace (lineOne lineTwo : string) : bool :=
  negb (oneEndsWithWhitespace lineOne) && negb (isParenthesisPair lineOne lineTwo).

(** The [resultLine] of [ActionJoin.exec]; [lineTwo] is the second line
    from its first non-blank character on. *)
Definition ActionJoin_resultLine (lineOne lineTwo : string) : string :=
  (lineOne ++ (if addSpace lineOne lineTwo then " " else "") ++ lineTwo)%string.

(** The column [ActionJoin.exec] leaves the cursor on. *)
Definition ActionJoin_cursorColumn (lineOne lineTwo : string) : Z :=
  JS.length lineOne
  + (if addSpace lineOne lineTwo then 1 else 0)
  + (if isParenthesisPair lineOne lineTwo then 1 else 0) - 1.

(** The [resultLine] of [ActionJoinNoWhitespace.exec] and the column it
    leaves the cursor on. *)
Definition ActionJoinNoWhitespace_resultLine (lineOne lineTwo : string) : string :=
  (lineOne ++ lineTwo)%string.

Definition ActionJoinNoWhitespace_cursorColumn (lineOne lineTwo : string) : Z :=
  JS.length lineOne.

(* ----------------------------------------------------------------- *)
(** *** Commands that edit through the host editor *)

(** Modelled from the spec: [Position.getNextLineBegin] of
    [motion/position.ts], which is not part of the sources at hand: the
    begin of the line below, the position itself on the last line. *)
Definition getNextLineBegin (doc : Document) (p : Position) : Position :=
  if line p >=? TextEditor_getLineCount doc - 1 then p
  else mkPosition (line p + 1) 0.

(** [s.substring(k)] for a column [k] that is not negative. *)
Definition substringFrom (k : Z) (s : string) : string :=
  dropChars (Z.to_nat k) s.

Section HostCommands.

Variable TextEditor_getText : Document -> Position -> Position -> string.
Variable TextEditor_delete : Document -> Position -> Position -> Document.

(** [TextEditor.insert(text, at)] of the host editor. *)
Variable TextEditor_insert : string -> Position -> Document -> Document.

(** [vimState.effectiveRegisterMode()], of [mode/modeHandler.ts]. *)
Variable effectiveRegisterMode : VimState -> RegisterMode.

(** [Position.getFirstLineNonBlankChar], of [motion/position.ts]. *)
Variable getFirstLineNonBlankChar : Document -> Position -> Position.

(** [DeleteOperator.run] *)
Definition DeleteOperator_run
    (start end_ : Position) (yank : bool) (w : World) : option World :=
  let vimState := vim w in
  match DeleteOperator_delete TextEditor_getText TextEditor_delete start end_
          (currentMode vimState) (effectiveRegisterMode vimState) vimState yank w with
  | None => None
  | Some (result, w) =>
      let vimState := set_currentMode Normal (vim w) in
      let vimState := set_cursorPosition result vimState in
      Some (set_vim vimState w)
  end.

(** [ChangeOperator.run] *)
Definition ChangeOperator_run (start end_ : Position) (w : World) : option World :=
  match TextEditor_getLineAt (document w) end_ with
  | None => None
  | Some lineAtEnd =>
      let isEndOfLine := character end_ =? JS.length lineAtEnd - 1 in
      match TextEditor_getLineAt (document w) start with
      | None => None
      | Some _ =>
          let state :=
            if negb (Position_getLineLength (document w) (line start) =? 0)
            then DeleteOperator_run start end_ true w
            else Some w in
          match state with
          | None => None
          | Some state =>
              let state := set_vim (set_currentMode Insert (vim state)) state in
              if isEndOfLine then
                Some (set_vim
                        (set_cursorPosition
                           (getRight (document state) (cursorPosition (vim state)))
                           (vim state)) state)
              else Some state
          end
      end
  end.

(** [ActionJoin.exec], the key [J]. *)
Definition ActionJoin_exec (position : Position) (w : World) : option World :=
  let doc := document w in
  if line position =? TextEditor_getLineCount doc - 1 then Some w
  else
    match TextEditor_getLineAt doc position,
          TextEditor_getLineAt doc (getNextLineBegin doc position) with
    | Some lineOne, Some lineTwo =>
        let next := getNextLineBegin doc position in
        let lineTwo :=
          substringFrom (character (getFirstLineNonBlankChar doc next)) lineTwo in
        let resultLine := ActionJoin_resultLine lineOne lineTwo in
        match DeleteOperator_run (getLineBegin position)
                (if JS.length lineTwo >? 0
                 then getLeft (getLineEnd doc next)
                 else getLineEnd doc position)
                true w with
        | None => None
        | Some newState =>
            let newState :=
              set_document (TextEditor_insert resultLine position (document newState))
                newState in
            Some (set_vim
                    (set_cursorPosition
                       (mkPosition (line position)
                          (ActionJoin_cursorColumn lineOne lineTwo))
                       (vim newState)) newState)
        end
    | _, _ => None
    end.

End HostCommands.

(* ----------------------------------------------------------------- *)
(** *** Case *)

Definition isUpperChar (c : ascii) : bool :=
  let n := nat_of_ascii c in (Nat.leb 65 n && Nat.leb n 90)%bool.

Definition isLowerChar (c : ascii) : bool :=
  let n := nat_of_ascii c in (Nat.leb 97 n && Nat.leb n 122)%bool.

Definition lowerChar (c : ascii) : ascii :=
  if isUpperChar c then ascii_of_nat (nat_of_ascii c + 32) else c.

Definition upperChar (c : ascii) : ascii :=
  if isLowerChar c then ascii_of_nat (nat_of_ascii c - 32) else c.

Fixpoint mapChars (f : ascii -> ascii) (s : string) : string :=
  match s with
  | EmptyString => EmptyString
  | String c rest => String (f c) (mapChars f rest)
  end.

(** [s.toLocaleLowerCase()] and [s.toLocaleUpperCase()] on ASCII text,
    where only the letters A to Z have two cases, in a locale that cases
    them as English does (Turkish, Azeri and Lithuanian do not). *)
Definition toLocaleLowerCase (s : string) : string := mapChars lowerChar s.
Definition toLocaleUpperCase (s : string) : string := mapChars upperChar s.

(** The text [ToggleCaseOperator.run] puts in the place of [char]. *)
Definition ToggleCase_toggled (char : string) : string :=
  let toggled := toLocaleLowerCase char in
  if String.eqb toggled char then toLocaleUpperCase char else toggled.

(** [p.isBefore(other)] of the host's position type. *)
Definition Position_isBefore (p other : Position) : bool :=
  if line p <? line other then true
  else if line other <? line p then false
  else character p <? character other.

Section HostCase.

Variable TextEditor_getText : Document -> Position -> Position -> string.

(** [TextEditor.replace(range, text)] of the host editor. *)
Variable TextEditor_replace : Document -> Position -> Position -> string -> Document.

(** [ToggleCaseOperator.run] *)
Definition ToggleCaseOperator_run (start end_ : Position) (w : World) : World :=
  let rangeEnd := mkPosition (line end_) (character end_ + 1) in
  let char := TextEditor_getText (document w) start rangeEnd in
  let toggled := ToggleCase_toggled char in
  let w :=
    if negb (String.eqb toggled char)
    then set_document (TextEditor_replace (document w) start rangeEnd toggled) w
    else w in
  let cursorPosition := if Position_isBefore start end_ then start else end_ in
  let vimState := set_cursorPosition cursorPosition (vim w) in
  let vimState := set_cursorStartPosition cursorPosition vimState in
  let vimState := set_currentMode Normal vimState in
  set_vim vimState w.

End HostCase.

(* ----------------------------------------------------------------- *)
(** *** The tab command *)

Inductive Tab :=
  | Tab_Next | Tab_Previous | Tab_First | Tab_Last
  | Tab_New | Tab_Close | Tab_Only | Tab_Move.

(** [ITabCommandArguments]; [count] is optional. *)
Record ITabCommandArguments := mkTabArguments {
  tab : Tab;
  tab_count : option Z
}.

(** A call of [vscode.commands.executeCommand]: the command and, for
    [moveActiveEditor], its argument. *)
Inductive EditorCommand :=
  | Run (command : string)
  | MoveActiveEditor (to : string) (value : option Z).

(** The loop of [executeCommandWithCount]: [remaining] turns are left,
    [issued] are the calls made so far. *)
Fixpoint executeCommandWithCount_loop
    (remaining : nat) (command : string) (issued : list EditorCommand)
    : list EditorCommand :=
  match remaining with
  | O => issued
  | S remaining' =>
      executeCommandWithCount_loop remaining' command (issued ++ [Run command])
  end.

Definition executeCommandWithCount
    (count : Z) (command : string) (issued : list EditorCommand) : list EditorCommand :=
  executeCommandWithCount_loop (Z.to_nat count) command issued.

(** [TabCommand.execute]: the calls of [executeCommand] it makes, in
    order. *)
Definition TabCommand_execute (arguments : ITabCommandArguments) : list EditorCommand :=
  let issued : list EditorCommand := [] in
  match tab arguments with
  | Tab_Next =>
      match tab_count arguments with
      | Some count =>
          if negb (count =? 0) then
            let issued := (issued ++ [Run "workbench.action.openEditorAtIndex1"])%list in
            executeCommandWithCount (count - 1) "workbench.action.nextEditor" issued
          else executeCommandWithCount 1 "workbench.action.nextEditor" issued
      | None => executeCommandWithCount 1 "workbench.action.nextEditor" issued
      end
  | Tab_Previous =>
      match tab_count arguments with
      | Some count =>
          if count <=? 0 then issued
          else
            executeCommandWithCount (countOr1 count)
              "workbench.action.previousEditor" issued
      | None => executeCommandWithCount 1 "workbench.action.previousEditor" issued
      end
  | Tab_First => executeCommandWithCount 1 "workbench.action.openEditorAtIndex1" issued
  | Tab_Last => executeCommandWithCount 1 "workbench.action.openLastEditorInGroup" issued
  | Tab_New => executeCommandWithCount 1 "workbench.action.files.newUntitledFile" issued
  | Tab_Close =>
      match tab_count arguments with
      | None => (issued ++ [Run "workbench.action.closeActiveEditor"])%list
      | Some _ => issued
      end
  | Tab_Only => executeCommandWithCount 1 "workbench.action.closeOtherEditors" issued
  | Tab_Move =>
      match tab_count arguments with
      | Some count =>
          if count =? 0 then (issued ++ [MoveActiveEditor "first" None])%list
          else (issued ++ [MoveActiveEditor "position" (Some (count + 1))])%list
      | None => (issued ++ [MoveActiveEditor "last" None])%list
      end
  end.

(** Text made of ASCII characters only. *)
Fixpoint isAsciiText (s : string) : bool :=
  match s with
  | EmptyString => true
  | String c rest => Nat.ltb (nat_of_ascii c) 128 && isAsciiText rest
  end.

(* ================================================================= *)
(** ** Pasting a block *)

Definition set_currentRegisterMode (m : RegisterMode) (v : VimState) : VimState :=
  mkVimState (currentMode v) (cursorPosition v) (cursorStartPosition v)
    (cursorPositionJustBeforeAnythingHappened v) (desiredColumn v)
    m (recordedState v).

Definition newline : ascii := "010"%char.

Fixpoint newlines (n : nat) : string :=
  match n with
  | O => EmptyString
  | S m => String newline (newlines m)
  end.

(** [Array(n).join("\n")]: [n] empty slots joined by line breaks, which
    are [n - 1] line breaks for a positive [n]. *)
Definition Array_join_newlines (n : Z) : string :=
  newlines (Z.to_nat (n - 1)).

Fixpoint hasNewline (s : string) : bool :=
  match s with
  | EmptyString => false
  | String c rest => Ascii.eqb c newline || hasNewline rest
  end.

(** [text] with [piece] put in at column [c]. *)
Definition pasteInto (text : string) (c : Z) (piece : string) : string :=
  (substring 0 (Z.to_nat c) text ++ piece ++ dropChars (Z.to_nat c) text)%string.

(** The buffer with line [l] replaced by [text]. *)
Definition setLine (l : nat) (text : string) (doc : Document) : Document :=
  (firstn l doc ++ text :: skipn (S l) doc)%list.

Section HostInsert.

(** [TextEditor.insertAt(text, position)], an edit of the host editor. *)
Variable TextEditor_insertAt : string -> Position -> Document -> Document.

(** The loop of [PutCommand.execVisualBlockPaste], one line of the block
    per line of the buffer from [lineIndex] down; [None] where
    [TextEditor.getLineAt] raises. *)
Fixpoint execVisualBlockPaste_loop (block : list string) (lineIndex character_ : Z)
    (doc : Document) : option Document :=
  match block with
  | [] => Some doc
  | line_ :: rest =>
      match TextEditor_getLineAt doc (mkPosition lineIndex 0) with
      | None => None
      | Some text =>
          let insertPos := mkPosition lineIndex (Z.min character_ (JS.length text)) in
          execVisualBlockPaste_loop rest (lineIndex + 1) character_
            (TextEditor_insertAt line_ insertPos doc)
      end
  end.

(** [PutCommand.execVisualBlockPaste]; the register mode it leaves is the
    first member of the enumeration. *)
Definition PutCommand_execVisualBlockPaste (block : list string) (position : Position)
    (after : bool) (w : World) : option World :=
  let position := if after then getRight (document w) position else position in
  let linesToAdd :=
    Z.max 0 (Z.of_nat (List.length block)
             - (TextEditor_getLineCount (document w) - line position) + 1) in
  let padded :=
    if linesToAdd >? 0 then
      match TextEditor_getLineAt (document w)
              (mkPosition (TextEditor_getLineCount (document w) - 1) 0) with
      | None => None
      | Some text =>
          Some (TextEditor_insertAt (Array_join_newlines linesToAdd)
                  (mkPosition (TextEditor_getLineCount (document w) - 1) (JS.length text))
                  (document w))
      end
    else Some (document w) in
  match padded with
  | None => None
  | Some doc =>
      match execVisualBlockPaste_loop block (line position) (character position) doc with
      | None => None
      | Some doc' =>
          Some (set_vim (set_currentRegisterMode FigureItOutFromContext (vim w))
                  (set_document doc' w))
      end
  end.

End HostInsert.

(** A host edit for the sample sessions: the text goes in at the position,
    and each line break in it splits the line. *)
Fixpoint splitLines (s : string) : list string :=
  match s with
  | EmptyString => [EmptyString]
  | String c rest =>
      if Ascii.eqb c newline then EmptyString :: splitLines rest
      else match splitLines rest with
           | first :: more => String c first :: more
           | [] => [String c EmptyString]
           end
  end.

Fixpoint glue (pre : string) (pieces : list string) (post : string) : list string :=
  match pieces with
  | [] => [(pre ++ post)%string]
  | piece :: more =>
      match more with
      | [] => [(pre ++ piece ++ post)%string]
      | _ :: _ => (pre ++ piece)%string :: glue EmptyString more post
      end
  end.

Definition insertAt_sample (text : string) (p : Position) (doc : Document) : Document :=
  match TextEditor_getLineAt doc p with
  | None => doc
  | Some t =>
      let l := Z.to_nat (line p) in
      let c := Z.to_nat (character p) in
      (firstn l doc
       ++ glue (substring 0 c t) (splitLines text) (dropChars c t)
       ++ skipn (S l) doc)%list
  end.

(* ================================================================= *)
(** ** Movements that yield a position and write to the session *)

(** The single step of a movement that yields a position; the session it
    leaves may differ from the one it was given. *)
Definition PositionStep := Position -> World -> Position * World.

Definition asPositionStep (f : PositionStep) : Step :=
  fun position w => let '(p, w) := f position w in (APosition p, w).

(** [n] steps in a row, the position and the session threaded. *)
Fixpoint runSteps (n : nat) (f : PositionStep) (position : Position) (w : World)
    : Position * World :=
  match n with
  | O => (position, w)
  | S n' => let '(p, w) := f position w in runSteps n' f p w
  end.

(** [MoveDown], the key [j]: [execAction] and [execActionForOperator]. *)
Definition MoveDown_execAction : PositionStep :=
  fun position w => (getDown (document w) position (desiredColumn (vim w)), w).

Definition MoveDown_execActionForOperator : PositionStep :=
  fun position w =>
    let w := set_vim (set_currentRegisterMode LineWise (vim w)) w in
    (getDown (document w) position (character (getLineEnd (document w) position)), w).

Section HostToggle.

Variable TextEditor_getText : Document -> Position -> Position -> string.
Variable TextEditor_replace : Document -> Position -> Position -> string -> Document.

(** [ToggleCaseAndMoveForward.execAction], the key [~] of Normal mode. *)
Definition ToggleCaseAndMoveForward_execAction : PositionStep :=
  fun position w =>
    let w := ToggleCaseOperator_run TextEditor_getText TextEditor_replace
               position position w in
    (getRight (document w) position, w).

End HostToggle.

(** A host editor for the sample sessions, for ranges within one line:
    the text of the range, and the line with the range replaced. *)
Definition getText_sample (doc : Document) (a b : Position) : string :=
  substring (Z.to_nat (character a)) (Z.to_nat (character b - character a))
    (lineText doc a).

Definition replace_sample (doc : Document) (a b : Position) (text : string) : Document :=
  match TextEditor_getLineAt doc a with
  | None => doc
  | Some t =>
      setLine (Z.to_nat (line a))
        (substring 0 (Z.to_nat (character a)) t ++ text
         ++ dropChars (Z.to_nat (character b)) t)%string
        doc
  end.

(* ================================================================= *)
(** ** Sample sessions *)

Definition vimState_example (m : ModeName) (n : Z) (o : option OperatorClass) : VimState :=
  mkVimState m (mkPosition 0 0) (mkPosition 0 0) (mkPosition 0 0) 0
    CharacterWise (mkRecordedState n o "" [] []).

Definition world_example (doc : Document) (n : Z) (o : option OperatorClass) : World :=
  mkWorld (vimState_example Normal n o) doc [].

Definition twoLines : Document := [ "hello world"; "  goodbye" ].

(** [MoveNonBlankFirst], the keys [g] [g], as the matcher sees it. *)
Definition MoveNonBlankFirst : ActionClass :=
  plainAction "MoveNonBlankFirst" (mkBaseAction BaseMovement_modes ["g"; "g"] false false).

(** [DeleteOperator], the key [d], as the matcher sees it. *)
Definition DeleteOperator_action : ActionClass :=
  plainAction "DeleteOperator"
    (mkBaseAction [Normal; Visual; VisualLine] ["d"] false true).

(** A registry of four of the registered actions, in their order. *)
Definition someActions : list ActionClass :=
  [ CommandNumber; DeleteOperator_action; MoveLineBegin; MoveNonBlankFirst ].

(** The keys [f] and [o], as typed. *)
Definition find_o : ActionInstance := mkActionInstance "MoveFindForward" ["f"; "o"].

(* ================================================================= *)
(** * Properties *)

(** A comparison of integers whose outcome the context decides. *)
Ltac test_is b v :=
  replace b with v
    by (symmetry;
        first [ apply Z.eqb_eq | apply Z.eqb_neq | apply Z.ltb_lt | apply Z.ltb_ge
              | rewrite Z.geb_leb; first [ apply Z.leb_le | apply Z.leb_gt ]
              | rewrite Z.gtb_ltb; first [ apply Z.ltb_lt | apply Z.ltb_ge ] ];
        first [ assumption | lia ]).

(* ================================================================= *)
(** ** Keypress comparison *)

Lemma indexOf_found (s t : string) :
  t <> EmptyString -> (JS.indexOf s t <> -1 <-> occursIn t s).
Proof.
  intros Hne. unfold JS.indexOf, occursIn.
  destruct (String.index 0 t s) as [i|] eqn:Hidx.
  - split; [intros _ | lia].
    exists i. eapply index_correct1; eauto.
  - split; [congruence |].
    intros [m Hm]. exfalso.
    apply (index_correct3 0 m t s Hidx Hne); [apply Nat.le_0_l | exact Hm].
Qed.

Lemma containsControlKey_from_spec (ks : list string) (s : string) :
  Forall (fun k => k <> EmptyString) ks ->
  (containsControlKey_from ks s = true <-> exists k, In k ks /\ occursIn k s).
Proof.
  induction 1 as [| k ks Hk _ IH]; simpl.
  - split; [discriminate | intros (k & [] & _)].
  - destruct (JS.indexOf s k =? -1) eqn:E; simpl.
    + apply Z.eqb_eq in E. rewrite IH. split.
      * intros (k' & Hin & Hocc). exists k'. auto.
      * intros (k' & [-> | Hin] & Hocc).
        -- apply indexOf_found in Hocc; [contradiction | assumption].
        -- exists k'. auto.
    + apply Z.eqb_neq in E. split; [intros _ | reflexivity].
      exists k. split; [now left | now apply indexOf_found].
Qed.

Lemma containsControlKey_spec (s : string) :
  containsControlKey s = true <-> isControlKeyToken s.
Proof.
  apply containsControlKey_from_spec.
  unfold controlKeys. repeat constructor; discriminate.
Qed.

Lemma isSingleNumber_spec (s : string) :
  isSingleNumber s = true <-> isDecimalDigit s.
Proof.
  unfold isDecimalDigit, decimalDigits. split.
  - destruct s as [| c [| c' s']]; try discriminate.
    + destruct c as [[] [] [] [] [] [] [] []]; vm_compute; intros H;
        first [ discriminate H | tauto ].
    + unfold isSingleNumber, JS.length. simpl String.length.
      intros H. apply andb_true_iff in H as [H _].
      apply Z.eqb_eq in H. lia.
  - intros H. simpl in H.
    repeat (destruct H as [<- | H]; [reflexivity |]). contradiction.
Qed.

Lemma compareKeypressSequence_loop_cons (l r : string) (one two : list string) :
  compareKeypressSequence_loop (l :: one) (r :: two) = true <->
  tokensMatch l r /\ compareKeypressSequence_loop one two = true.
Proof.
  unfold tokensMatch. cbn [compareKeypressSequence_loop].
  pose proof (isSingleNumber_spec l) as Dl.
  pose proof (isSingleNumber_spec r) as Dr.
  pose proof (containsControlKey_spec l) as Cl.
  pose proof (containsControlKey_spec r) as Cr.
  destruct (String.eqb_spec l "<any>") as [|Hl1]; [tauto |].
  destruct (String.eqb_spec r "<any>") as [|Hr1]; [tauto |].
  destruct (String.eqb_spec l "<number>") as [|Hl2];
    destruct (String.eqb_spec r "<number>") as [|Hr2];
    destruct (String.eqb_spec l "<character>") as [|Hl3];
    destruct (String.eqb_spec r "<character>") as [|Hr3];
    destruct (isSingleNumber l); destruct (isSingleNumber r);
    destruct (containsControlKey l); destruct (containsControlKey r);
    destruct (String.eqb_spec l r) as [|Hlr];
    cbn [andb negb]; subst; try congruence;
    intuition (try congruence; try discriminate).
Qed.

Example compare_gg : compareKeypressSequence ["g"; "g"] ["g"; "g"] = true.
Proof. reflexivity. Qed.

Example compare_f_char :
  compareKeypressSequence ["f"; "<character>"] ["f"; "x"] = true.
Proof. reflexivity. Qed.

Example compare_f_escape :
  compareKeypressSequence ["f"; "<character>"] ["f"; "<escape>"] = false.
Proof. reflexivity. Qed.

Example compare_character_ctrl :
  compareKeypressSequence ["<character>"] ["ctrl+c"] = false.
Proof. reflexivity. Qed.

Example compare_number_ten : compareKeypressSequence ["<number>"] ["10"] = false.
Proof. reflexivity. Qed.

Example compare_prefix : compareKeypressSequence ["g"] ["g"; "g"] = false.
Proof. reflexivity. Qed.

(** C2.  [compareKeypressSequence] holds exactly of two sequences of the
    same length that agree at every position, where two tokens agree when
    one of them is [<any>], or one is [<number>] and the other a single
    decimal digit, or one is [<character>] and the other is not a
    control-key token, or they are the same string. *)
Theorem compareKeypressSequence_correct (one two : list string) :
  compareKeypressSequence one two = true <->
  List.length one = List.length two /\
  forall (i : nat) (l r : string),
    nth_error one i = Some l -> nth_error two i = Some r -> tokensMatch l r.
Proof.
  unfold compareKeypressSequence.
  destruct (Nat.eqb_spec (List.length one) (List.length two)) as [Hlen | Hlen];
    cbn [negb]; [| split; [discriminate | tauto]].
  split.
  - intros H. split; [assumption |].
    revert two Hlen H.
    induction one as [| l one IH]; intros [| r two] Hlen H i l' r' Hl Hr;
      try discriminate; try (destruct i; discriminate).
    apply compareKeypressSequence_loop_cons in H as [Hm Hrest].
    destruct i as [| i]; simpl in Hl, Hr.
    + congruence.
    + injection Hlen as Hlen.
      exact (IH two Hlen Hrest i l' r' Hl Hr).
  - intros [_ H]. revert two Hlen H.
    induction one as [| l one IH]; intros [| r two] Hlen H;
      try discriminate; [reflexivity |].
    apply compareKeypressSequence_loop_cons. split.
    + apply (H 0%nat); reflexivity.
    + apply IH; [simpl in Hlen; congruence |].
      intros i l' r' Hl Hr. apply (H (S i)); assumption.
Qed.

(* ================================================================= *)
(** ** The key matcher *)

Section Matcher.

Variable keysPressed : list string.
Variable vimState : VimState.

(** The loop, for any value the flag has when it is entered. *)
Lemma getRelevantAction_loop_spec (allActions : list ActionClass) (flag : bool) :
  getRelevantAction_loop allActions flag keysPressed vimState =
  match find (fun a => doesActionApply a vimState keysPressed) allActions with
  | Some a => TheAction (instantiate a vimState)
  | None =>
      TheState
        (if flag || existsb (fun a => couldActionApply a vimState keysPressed) allActions
         then WaitingOnKeys else NoPossibleMatch)
  end.
Proof.
  revert flag.
  induction allActions as [| thing rest IH]; intros flag; simpl.
  - now rewrite orb_false_r.
  - destruct (doesActionApply thing vimState keysPressed).
    + reflexivity.
    + rewrite IH. destruct (find _ rest); [reflexivity |].
      destruct (couldActionApply thing vimState keysPressed), flag; reflexivity.
Qed.

(** An exact match is answered by the first registered action that
    applies, whatever follows it in the registry. *)
Lemma getRelevantAction_first_match (before after : list ActionClass) (a : ActionClass) :
  (forall b, In b before -> doesActionApply b vimState keysPressed = false) ->
  doesActionApply a vimState keysPressed = true ->
  getRelevantAction (before ++ a :: after) keysPressed vimState =
  TheAction (mkActionInstance (className a) (actionKeys (recordedState vimState))).
Proof.
  intros Hbefore Ha. unfold getRelevantAction.
  rewrite getRelevantAction_loop_spec.
  replace (find _ (before ++ a :: after)) with (Some a); [reflexivity |].
  induction before as [| b before IH]; simpl.
  - now rewrite Ha.
  - rewrite (Hbefore b (or_introl eq_refl)). apply IH.
    intros b' Hb'. apply Hbefore. now right.
Qed.

Lemma find_applies_none (allActions : list ActionClass) :
  (forall a, In a allActions -> doesActionApply a vimState keysPressed = false) ->
  find (fun a => doesActionApply a vimState keysPressed) allActions = None.
Proof.
  intros H.
  destruct (find _ allActions) as [a |] eqn:E; [| reflexivity].
  apply find_some in E as [Hin Happ]. rewrite (H a Hin) in Happ. discriminate.
Qed.

(** No exact match, and some action could still apply. *)
Lemma getRelevantAction_waiting (allActions : list ActionClass) :
  (forall a, In a allActions -> doesActionApply a vimState keysPressed = false) ->
  (exists a, In a allActions /\ couldActionApply a vimState keysPressed = true) ->
  getRelevantAction allActions keysPressed vimState = TheState WaitingOnKeys.
Proof.
  intros Hnone Hsome. unfold getRelevantAction.
  rewrite getRelevantAction_loop_spec, (find_applies_none _ Hnone).
  replace (existsb _ allActions) with true; [reflexivity |].
  symmetry. apply existsb_exists. exact Hsome.
Qed.

(** Neither an exact match nor a possible one. *)
Lemma getRelevantAction_no_match (allActions : list ActionClass) :
  (forall a, In a allActions -> doesActionApply a vimState keysPressed = false) ->
  (forall a, In a allActions -> couldActionApply a vimState keysPressed = false) ->
  getRelevantAction allActions keysPressed vimState = TheState NoPossibleMatch.
Proof.
  intros Hnone Hcould. unfold getRelevantAction.
  rewrite getRelevantAction_loop_spec, (find_applies_none _ Hnone).
  replace (existsb _ allActions) with false; [reflexivity |].
  symmetry. apply not_true_is_false. intros H.
  apply existsb_exists in H as (a & Hin & Ha).
  rewrite (Hcould a Hin) in Ha. discriminate.
Qed.

End Matcher.

(** C1.  [Actions.getRelevantAction] answers with the matching protocol:
    a fresh instance of the first registered action whose
    [doesActionApply] holds of the whole key buffer; failing that,
    [WaitingOnKeys] when the [couldActionApply] of some registered action
    holds; failing that, [NoPossibleMatch]. *)
Theorem getRelevantAction_matchingProtocol
    (allActions : list ActionClass) (keysPressed : list string) (vimState : VimState) :
  getRelevantAction allActions keysPressed vimState =
  matchingProtocol allActions keysPressed vimState.
Proof.
  unfold getRelevantAction, matchingProtocol.
  rewrite getRelevantAction_loop_spec. simpl.
  destruct (find _ allActions); [reflexivity |].
  destruct (existsb _ allActions); reflexivity.
Qed.

Example waiting_on_second_g :
  getRelevantAction someActions ["g"] (vimState_example Normal 0 None)
  = TheState WaitingOnKeys.
Proof. reflexivity. Qed.

Example matched_gg :
  getRelevantAction someActions ["g"; "g"] (vimState_example Normal 0 None)
  = TheAction (mkActionInstance "MoveNonBlankFirst" []).
Proof. reflexivity. Qed.

Example no_match_for_q :
  getRelevantAction someActions ["q"] (vimState_example Normal 0 None)
  = TheState NoPossibleMatch.
Proof. reflexivity. Qed.

Example operators_do_not_stack :
  getRelevantAction someActions ["d"] (vimState_example Normal 0 (Some DeleteOperator))
  = TheState NoPossibleMatch.
Proof. reflexivity. Qed.

Example zero_is_line_begin :
  getRelevantAction someActions ["0"] (vimState_example Normal 0 None)
  = TheAction (mkActionInstance "MoveLineBegin" []).
Proof. reflexivity. Qed.

Example zero_is_a_digit :
  getRelevantAction someActions ["0"] (vimState_example Normal 1 None)
  = TheAction (mkActionInstance "CommandNumber" []).
Proof. reflexivity. Qed.

(* ================================================================= *)
(** ** The key [0] *)

Lemma zero_matches_number : compareKeypressSequence ["<number>"] ["0"] = true.
Proof. reflexivity. Qed.

Lemma zero_matches_zero : compareKeypressSequence ["0"] ["0"] = true.
Proof. reflexivity. Qed.

(** C10.  In Normal, Visual and VisualLine mode, with a count that is not
    negative, the key [0] satisfies [CommandNumber.doesActionApply] exactly
    when a count has been accumulated and
    [MoveLineBegin.doesActionApply] exactly when the count is 0: one of the
    two applies and the other does not. *)
Theorem zero_key_never_ambiguous (vimState : VimState) :
  In (currentMode vimState) [Normal; Visual; VisualLine] ->
  0 <= count (recordedState vimState) ->
  (doesActionApply CommandNumber vimState ["0"] = true
     <-> count (recordedState vimState) > 0)
  /\ (doesActionApply MoveLineBegin vimState ["0"] = true
     <-> count (recordedState vimState) = 0)
  /\ doesActionApply CommandNumber vimState ["0"]
     = negb (doesActionApply MoveLineBegin vimState ["0"]).
Proof.
  intros Hmode Hcount.
  assert (Hnum : BaseAction_doesActionApply CommandNumber_base vimState ["0"] = true).
  { unfold BaseAction_doesActionApply, CommandNumber_base.
    cbn [keys mustBeFirstKey isBaseOperator modes].
    rewrite zero_matches_number, andb_false_r. cbn [negb andb].
    simpl in Hmode. destruct Hmode as [<- | [<- | [<- | []]]]; reflexivity. }
  assert (Hbeg : BaseAction_doesActionApply MoveLineBegin_base vimState ["0"] = true).
  { unfold BaseAction_doesActionApply, MoveLineBegin_base.
    cbn [keys mustBeFirstKey isBaseOperator modes].
    rewrite zero_matches_zero, andb_false_r. cbn [negb andb].
    simpl in Hmode. destruct Hmode as [<- | [<- | [<- | []]]]; reflexivity. }
  cbn [doesActionApply CommandNumber MoveLineBegin].
  rewrite Hnum, Hbeg. cbn [firstKeyIsZero nth_error andb].
  replace (String.eqb "0" "0") with true by reflexivity.
  cbn [andb orb negb].
  rewrite orb_false_r.
  destruct (Z.gtb_spec (count (recordedState vimState)) 0);
    destruct (Z.eqb_spec (count (recordedState vimState)) 0);
    repeat split; intros; try lia; try discriminate; try reflexivity.
Qed.

Lemma zero_key_never_ambiguous_witness :
  let vimState := vimState_example Visual 3 None in
  (doesActionApply CommandNumber vimState ["0"] = true
     <-> count (recordedState vimState) > 0)
  /\ (doesActionApply MoveLineBegin vimState ["0"] = true
     <-> count (recordedState vimState) = 0)
  /\ doesActionApply CommandNumber vimState ["0"]
     = negb (doesActionApply MoveLineBegin vimState ["0"]).
Proof.
  apply (zero_key_never_ambiguous (vimState_example Visual 3 None)).
  - simpl. right. left. reflexivity.
  - simpl. lia.
Defined.

(* ================================================================= *)
(** ** The counted loop *)

Lemma clampCount_range (c : Z) : clampCount c = Z.max 1 (Z.min c 99999).
Proof.
  unfold clampCount.
  destruct (Z.ltb_spec c 1); [lia |].
  destruct (Z.gtb_spec c 99999); lia.
Qed.

Lemma clampCount_idempotent (c : Z) : clampCount (clampCount c) = clampCount c.
Proof. rewrite !clampCount_range. lia. Qed.

(** The loop sees the count only through its clamped value. *)
Lemma execActionWithCount_clamped
    (execAction execActionForOperator : Step) (p : Position) (w : World) (c : Z) :
  BaseMovement_execActionWithCount execAction execActionForOperator p w c
  = BaseMovement_execActionWithCount execAction execActionForOperator p w (clampCount c).
Proof.
  unfold BaseMovement_execActionWithCount.
  now rewrite clampCount_idempotent.
Qed.

(** C4, as amended.  A movement that inherits
    [BaseMovement.execActionWithCount] runs with count 0 as with count 1,
    with any count above 99999 as with 99999, and with any count as with
    the count clamped to the range from 1 to 99999. *)
Theorem inherited_count_is_clamped
    (execAction execActionForOperator : Step) (p : Position) (w : World) :
  let run := BaseMovement_execActionWithCount execAction execActionForOperator in
  run p w 0 = run p w 1
  /\ (forall c, 99999 < c -> run p w c = run p w 99999)
  /\ (forall c, run p w c = run p w (Z.max 1 (Z.min c 99999))).
Proof.
  intros run. unfold run. split; [| split].
  - rewrite (execActionWithCount_clamped _ _ p w 0).
    rewrite (execActionWithCount_clamped _ _ p w 1).
    reflexivity.
  - intros c Hc.
    rewrite (execActionWithCount_clamped _ _ p w c).
    rewrite (execActionWithCount_clamped _ _ p w 99999).
    rewrite !clampCount_range. f_equal. lia.
  - intros c. rewrite <- clampCount_range.
    apply execActionWithCount_clamped.
Qed.

Lemma inherited_count_is_clamped_witness :
  let w := world_example twoLines 0 None in
  let p := mkPosition 0 3 in
  execActionWithCount MoveLineEnd p w 0 = execActionWithCount MoveLineEnd p w 1
  /\ execActionWithCount MoveLineEnd p w 100000
     = execActionWithCount MoveLineEnd p w 99999.
Proof.
  intros w p.
  destruct (inherited_count_is_clamped MoveLineEnd_execAction MoveLineEnd_execAction p w)
    as (H0 & Hbig & _).
  split; [exact H0 | apply Hbig; lia].
Defined.

(** C4, as stated, fails on the movements that override
    [execActionWithCount]: [G] without a count goes to the last line and
    [1G] to the first, and [|] takes the column from the count itself. *)
Lemma count_law_counterexample :
  let w := world_example twoLines 0 None in
  let p := mkPosition 0 3 in
  (execActionWithCount MoveNonBlankLast p w 0
     = (AMovement (mkIMovement (mkPosition 0 0) (mkPosition 1 0) None (Some LineWise)), w)
   /\ execActionWithCount MoveNonBlankLast p w 1
     = (AMovement (mkIMovement (mkPosition 0 0) (mkPosition 0 0) None (Some LineWise)), w)
   /\ execActionWithCount MoveToColumn p w 100000 = (APosition (mkPosition 0 99999), w)
   /\ execActionWithCount MoveToColumn p w 99999 = (APosition (mkPosition 0 99998), w))
  /\ ~ countLaw MoveNonBlankLast p w
  /\ ~ countLaw MoveToColumn p w.
Proof.
  intros w p.
  split; [repeat split |]. split.
  - intros [H _]. discriminate H.
  - intros [_ H]. specialize (H 100000 ltac:(lia)). discriminate H.
Qed.

(* ================================================================= *)
(** ** Ranges under a count *)

Lemma fold_or_true (flags : list (option bool)) :
  fold_left JS.or flags (Some true) = Some true.
Proof. induction flags as [| f flags IH]; simpl; auto. Qed.

(** The accumulated flag is [true] exactly when some flag was. *)
Lemma fold_or_spec (flags : list (option bool)) (init : option bool) :
  fold_left JS.or flags init = Some true <->
  init = Some true \/ In (Some true) flags.
Proof.
  revert init. induction flags as [| f flags IH]; intros init; simpl.
  - tauto.
  - rewrite IH. destruct init as [[|]|]; simpl; intuition congruence.
Qed.

Lemma last_cons_default {A : Type} (x : A) (l : list A) (d d' : A) :
  List.last (x :: l) d = List.last (x :: l) d'.
Proof.
  revert x. induction l as [| y l IH]; intros x; [reflexivity |].
  change (List.last (y :: l) d = List.last (y :: l) d'). apply IH.
Qed.

Section RangeComposition.

Variable execAction : Step.
Variable execActionForOperator : Step.

Lemma temporaryResults_length (n : nat) (i count : Z) (p : Position) (w : World) :
  List.length (temporaryResults execAction execActionForOperator n i count p w) = n.
Proof.
  revert i p w. induction n as [| n IH]; intros i p w; simpl; [reflexivity |].
  destruct (temporaryResult_at execAction execActionForOperator i count p w)
    as [[q | t] w1]; simpl; now rewrite IH.
Qed.

Lemma temporaryResults_step (n : nat) (i count : Z) (p : Position) (w : World) :
  temporaryResults execAction execActionForOperator (S n) i count p w =
  let '(temporaryResult, w) :=
    temporaryResult_at execAction execActionForOperator i count p w in
  temporaryResult ::
  match temporaryResult with
  | APosition q => temporaryResults execAction execActionForOperator n (i + 1) count q w
  | AMovement t =>
      temporaryResults execAction execActionForOperator n (i + 1) count
        (if i =? count - 1 then p
         else getRightThroughLineBreaks (document w) (stop t)) w
  end.
Proof. reflexivity. Qed.

(** One turn of the loop on an iteration that yields a range. *)
Lemma loop_step_range (n : nat) (i count : Z) (p : Position) (result : MoveResult)
    (w w1 : World) (t : IMovement) :
  temporaryResult_at execAction execActionForOperator i count p w = (AMovement t, w1) ->
  execActionWithCount_loop execAction execActionForOperator (S n) i count p result w =
  let held :=
    mkIMovement (if i =? 0 then start t else start (heldRange result))
      (stop (heldRange result))
      (JS.or (failed (heldRange result)) (failed t))
      (registerMode (heldRange result)) in
  if i =? count - 1 then
    execActionWithCount_loop execAction execActionForOperator n (i + 1) count p
      (AMovement (mkIMovement (start held) (stop t) (failed held) (registerMode held))) w1
  else
    execActionWithCount_loop execAction execActionForOperator n (i + 1) count
      (getRightThroughLineBreaks (document w1) (stop t)) (AMovement held) w1.
Proof.
  intros Hstep. cbn [execActionWithCount_loop]. rewrite Hstep.
  destruct result; destruct (i =? 0); destruct (i =? count - 1); reflexivity.
Qed.

(** The loop over iterations that all yield ranges: the start is taken at
    index 0, the stop at index [count - 1], the flags are or-ed. *)
Lemma loop_of_ranges (n : nat) :
  forall (i count : Z) (p : Position) (result : MoveResult) (w : World),
    0 <= i ->
    Z.of_nat (S n) + i = count ->
    let results :=
      temporaryResults execAction execActionForOperator (S n) i count p w in
    (forall r, In r results -> exists t, r = AMovement t) ->
    exists first final overall w',
      hd_error results = Some (AMovement first)
      /\ List.last results (APosition p) = AMovement final
      /\ execActionWithCount_loop execAction execActionForOperator
           (S n) i count p result w = (AMovement overall, w')
      /\ start overall = (if i =? 0 then start first else start (heldRange result))
      /\ stop overall = stop final
      /\ failed overall
         = fold_left JS.or (map failedOf results) (failed (heldRange result)).
Proof.
  induction n as [| n IH]; intros i count p result w Hi Hcount results Hall;
    subst results; revert Hall; rewrite temporaryResults_step;
    destruct (temporaryResult_at execAction execActionForOperator i count p w)
      as [tr w1] eqn:Hstep; intros Hall;
    destruct (Hall tr (or_introl eq_refl)) as [t ->];
    rewrite (loop_step_range _ _ _ _ _ _ _ _ Hstep); cbv zeta.
  - test_is (i =? count - 1) true.
    cbn [temporaryResults execActionWithCount_loop].
    exists t, t. eexists. exists w1.
    repeat (split; [reflexivity |]).
    cbn [start stop failed registerMode map failedOf fold_left].
    repeat split.
  - replace (i =? count - 1) with false in * by (symmetry; apply Z.eqb_neq; lia).
    set (held :=
           mkIMovement (if i =? 0 then start t else start (heldRange result))
             (stop (heldRange result))
             (JS.or (failed (heldRange result)) (failed t))
             (registerMode (heldRange result))).
    set (next := getRightThroughLineBreaks (document w1) (stop t)) in *.
    destruct (IH (i + 1) count next (AMovement held) w1)
      as (first & final & overall & w' & Hhd & Hlast & Hrun & Hstart & Hstop & Hfailed).
    { lia. }
    { lia. }
    { intros r Hr. apply Hall. right. exact Hr. }
    exists t, final, overall, w'.
    split; [reflexivity |].
    split.
    { revert Hlast Hhd.
      destruct (temporaryResults execAction execActionForOperator (S n) (i + 1) count
                  next w1) as [| r rs] eqn:Hrs; [discriminate |].
      intros Hlast _.
      change (List.last (r :: rs) (APosition p) = AMovement final).
      rewrite <- Hlast. apply last_cons_default. }
    split; [exact Hrun |].
    split.
    { rewrite Hstart. test_is (i + 1 =? 0) false.
      reflexivity. }
    split; [exact Hstop |].
    rewrite Hfailed. reflexivity.
Qed.

End RangeComposition.

(** C5.  A movement run with a count above 1 whose iterations all yield
    ranges yields a range: its start is the start of the first iteration,
    its stop the stop of the last, and its [failed] flag is [true] exactly
    when the flag of some iteration is.  The iterations number the count,
    99999 at most. *)
Theorem counted_ranges_compose
    (execAction execActionForOperator : Step) (p : Position) (w : World) (count : Z) :
  1 < count ->
  (forall r, In r (iterationResults execAction execActionForOperator p w count) ->
             exists t, r = AMovement t) ->
  exists first final overall,
    let results := iterationResults execAction execActionForOperator p w count in
    List.length results = Z.to_nat (Z.min count 99999)
    /\ hd_error results = Some (AMovement first)
    /\ List.last results (APosition p) = AMovement final
    /\ fst (BaseMovement_execActionWithCount execAction execActionForOperator p w count)
       = AMovement overall
    /\ start overall = start first
    /\ stop overall = stop final
    /\ (failed overall = Some true <->
        exists t, In (AMovement t) results /\ failed t = Some true).
Proof.
  intros Hcount Hall.
  unfold iterationResults, BaseMovement_execActionWithCount in *.
  assert (Hclamp : clampCount count = Z.min count 99999)
    by (rewrite clampCount_range; lia).
  rewrite Hclamp in *.
  destruct (Z.to_nat (Z.min count 99999)) as [| n] eqn:Hn; [lia |].
  destruct (loop_of_ranges execAction execActionForOperator n 0 (Z.min count 99999)
              p (APosition (mkPosition 0 0)) w)
    as (first & final & overall & w' & Hhd & Hlast & Hrun & Hstart & Hstop & Hfailed);
    [lia | lia | exact Hall |].
  exists first, final, overall. cbv zeta.
  split; [apply temporaryResults_length |].
  split; [exact Hhd |].
  split; [exact Hlast |].
  split; [now rewrite Hrun |].
  split; [exact Hstart |].
  split; [exact Hstop |].
  rewrite Hfailed, fold_or_spec. cbn [heldRange failed].
  rewrite in_map_iff. split.
  - intros [Habs | (r & Hr & Hin)]; [discriminate |].
    destruct r as [q | t]; [discriminate |].
    exists t. split; assumption.
  - intros (t & Hin & Ht). right. exists (AMovement t). split; assumption.
Qed.

Lemma counted_ranges_compose_witness :
  let w := world_example twoLines 3 None in
  let p := mkPosition 0 3 in
  exists first final overall,
    let results := iterationResults MoveIndent_execAction MoveIndent_execAction p w 3 in
    List.length results = Z.to_nat (Z.min 3 99999)
    /\ hd_error results = Some (AMovement first)
    /\ List.last results (APosition p) = AMovement final
    /\ fst (BaseMovement_execActionWithCount MoveIndent_execAction MoveIndent_execAction p w 3)
       = AMovement overall
    /\ start overall = start first
    /\ stop overall = stop final
    /\ (failed overall = Some true <->
        exists t, In (AMovement t) results /\ failed t = Some true).
Proof.
  intros w p.
  apply (counted_ranges_compose MoveIndent_execAction MoveIndent_execAction p w 3).
  - lia.
  - intros r Hr. vm_compute in Hr.
    destruct Hr as [<- | [<- | [<- | []]]]; eexists; reflexivity.
Defined.

Example counted_ranges_run :
  fst (execActionWithCount MoveIndent (mkPosition 0 3) (world_example twoLines 3 None) 3)
  = AMovement (mkIMovement (mkPosition 0 0) (mkPosition 1 9) None None).
Proof. reflexivity. Qed.

(* ================================================================= *)
(** ** The delete operator *)

Lemma getLineLength_nonneg (doc : Document) (l : Z) : 0 <= Position_getLineLength doc l.
Proof.
  unfold Position_getLineLength, JS.length.
  destruct (TextEditor_getLineAt doc (mkPosition l 0)); lia.
Qed.

(** A line inside the buffer is read, and its length is that of its text. *)
Lemma getLineAt_inside (doc : Document) (p : Position) :
  0 <= line p < TextEditor_getLineCount doc ->
  exists text,
    TextEditor_getLineAt doc p = Some text
    /\ Position_getLineLength doc (line p) = JS.length text.
Proof.
  unfold TextEditor_getLineCount, Position_getLineLength, TextEditor_getLineAt.
  intros [Hlo Hhi]. cbn [line].
  test_is (line p <? 0) false.
  destruct (nth_error doc (Z.to_nat (line p))) as [text |] eqn:E.
  - exists text. split; reflexivity.
  - apply nth_error_None in E. lia.
Qed.

(** C3.  The range [DeleteOperator.delete] works on, for an [end] inside
    the buffer.  The end is made inclusive by one column, from the end of
    its line when the mode is LineWise; when it then sits one past the
    last character of its line it moves to the start of the next line,
    where there is one, and stays one past the end of the final line,
    where there is none.  The start is the begin of its line when the mode
    is LineWise, and the end of the line before when, besides, the end is
    on the last line of the buffer and the start is not on line 0. *)
Theorem delete_range_correct
    (doc : Document) (start end_ : Position) (registerMode : RegisterMode) :
  0 <= line end_ < TextEditor_getLineCount doc ->
  let lineWise := RegisterMode_eqb registerMode LineWise in
  let lastColumn := Position_getLineLength doc (line end_) in
  let inclusive :=
    mkPosition (line end_) ((if lineWise then lastColumn else character end_) + 1) in
  exists start' end',
    DeleteOperator_range doc start end_ registerMode = Some (start', end')
    /\ (character inclusive = lastColumn + 1 ->
        line end_ + 1 < TextEditor_getLineCount doc ->
        end' = mkPosition (line end_ + 1) 0)
    /\ (character inclusive = lastColumn + 1 ->
        line end_ = TextEditor_getLineCount doc - 1 ->
        end' = inclusive)
    /\ (character inclusive <> lastColumn + 1 -> end' = inclusive)
    /\ (lineWise = true ->
        line end_ = TextEditor_getLineCount doc - 1 -> line start <> 0 ->
        start' = mkPosition (line start - 1)
                   (Position_getLineLength doc (line start - 1)))
    /\ (lineWise = true ->
        line end_ <> TextEditor_getLineCount doc - 1 \/ line start = 0 ->
        start' = mkPosition (line start) 0)
    /\ (lineWise = false -> start' = start).
Proof.
  intros Hend lineWise lastColumn inclusive.
  assert (Hinc : 0 <= line inclusive < TextEditor_getLineCount doc) by exact Hend.
  destruct (getLineAt_inside doc inclusive Hinc) as (text & Hline & Hlen).
  change (line inclusive) with (line end_) in Hlen. fold lastColumn in Hlen.
  pose proof (getLineLength_nonneg doc (line end_ + 1)) as Hnext.
  unfold DeleteOperator_range. fold lineWise.
  assert (Hincl :
    mkPosition (line (if lineWise then getLineEnd doc end_ else end_))
      (character (if lineWise then getLineEnd doc end_ else end_) + 1) = inclusive).
  { unfold inclusive, getLineEnd. destruct lineWise; reflexivity. }
  rewrite Hincl, Hline, <- Hlen.
  eexists. eexists. split; [reflexivity |].
  change (line inclusive) with (line end_).
  split; [| split; [| split; [| split; [| split]]]].
  - intros Hone Hnextline.
    test_is (character inclusive =? lastColumn + 1) true.
    unfold getDown. change (line inclusive) with (line end_).
    test_is (line end_ <? TextEditor_getLineCount doc - 1) true.
    f_equal. lia.
  - intros Hone Hfinal.
    test_is (character inclusive =? lastColumn + 1) true.
    unfold getDown. change (line inclusive) with (line end_).
    test_is (line end_ <? TextEditor_getLineCount doc - 1) false.
    reflexivity.
  - intros Hnot.
    test_is (character inclusive =? lastColumn + 1) false.
    reflexivity.
  - intros -> Hlast Hstart.
    unfold getLineBegin. cbn [line].
    test_is (line end_ =? TextEditor_getLineCount doc - 1) true.
    test_is (line start =? 0) false.
    cbn [andb negb]. unfold getPreviousLineBegin, getLineEnd. cbn [line].
    test_is (line start =? 0) false.
    reflexivity.
  - intros -> Hor.
    unfold getLineBegin. cbn [line].
    destruct Hor as [Hlast | Hzero].
    + test_is (line end_ =? TextEditor_getLineCount doc - 1) false.
      reflexivity.
    + test_is (line start =? 0) true.
      now rewrite andb_false_r.
  - intros ->. now rewrite andb_false_r.
Qed.

Lemma delete_range_correct_witness :
  let doc := twoLines in
  exists start' end',
    DeleteOperator_range doc (mkPosition 1 4) (mkPosition 1 6) LineWise
      = Some (start', end')
    /\ start' = mkPosition 0 11
    /\ end' = mkPosition 1 10.
Proof.
  intros doc.
  destruct (delete_range_correct doc (mkPosition 1 4) (mkPosition 1 6) LineWise)
    as (start' & end' & Hrun & _ & Hend & _ & Hstart & _).
  - unfold doc, twoLines, TextEditor_getLineCount. simpl. lia.
  - exists start', end'. split; [exact Hrun | split].
    + apply Hstart; [reflexivity | reflexivity | discriminate].
    + apply Hend; reflexivity.
Defined.

Example delete_line_in_the_middle :
  DeleteOperator_range [ "one"; "two"; "three" ] (mkPosition 1 1) (mkPosition 1 2) LineWise
  = Some (mkPosition 1 0, mkPosition 2 0).
Proof. reflexivity. Qed.

Example delete_last_line :
  DeleteOperator_range [ "one"; "two"; "three" ] (mkPosition 2 1) (mkPosition 2 2) LineWise
  = Some (mkPosition 1 3, mkPosition 2 6).
Proof. reflexivity. Qed.

Example delete_characters :
  DeleteOperator_range [ "one"; "two"; "three" ] (mkPosition 1 0) (mkPosition 1 1) CharacterWise
  = Some (mkPosition 1 0, mkPosition 1 2).
Proof. reflexivity. Qed.

(* ================================================================= *)
(** ** The yank operator *)

Lemma compareTo_swap (p q : Position) :
  Position_compareTo p q > 0 -> Position_compareTo q p <= 0.
Proof.
  unfold Position_compareTo.
  destruct (Z.ltb_spec (line p) (line q)); [lia |].
  destruct (Z.gtb_spec (line p) (line q)).
  - intros _. destruct (Z.ltb_spec (line q) (line p)); lia.
  - destruct (Z.ltb_spec (character p) (character q)); [lia |].
    destruct (Z.gtb_spec (character p) (character q)); [| lia].
    intros _.
    destruct (Z.ltb_spec (line q) (line p)); [lia |].
    destruct (Z.gtb_spec (line q) (line p)); [lia |].
    destruct (Z.ltb_spec (character q) (character p)); lia.
Qed.

(** C8.  [YankOperator.run], for positions inside the buffer, leaves the
    buffer as it is.  It orders the two positions, makes the later one
    inclusive by one column and puts the text of that range into the
    register (with a line break when Visual mode selected it).  The mode
    becomes Normal; the cursor goes to where it was before the command when
    the yank came from Normal mode, and to the earlier of the two positions
    otherwise. *)
Theorem yank_correct
    (TextEditor_getText : Document -> Position -> Position -> string)
    (start end_ : Position) (w : World) :
  0 <= line start < TextEditor_getLineCount (document w) ->
  0 <= line end_ < TextEditor_getLineCount (document w) ->
  let ascending := Position_compareTo start end_ <=? 0 in
  let first := if ascending then start else end_ in
  let second := if ascending then end_ else start in
  let inclusive := mkPosition (line second) (character second + 1) in
  let text := TextEditor_getText (document w) first inclusive in
  exists w' yanked,
    YankOperator_run TextEditor_getText start end_ w = Some w'
    /\ document w' = document w
    /\ Position_compareTo first second <= 0
    /\ registers w'
       = (registerName (recordedState (vim w)), (yanked, currentRegisterMode (vim w)))
           :: registers w
    /\ (yanked = text \/ yanked = (text ++ String "010"%char EmptyString)%string)
    /\ (currentMode (vim w) <> Visual -> yanked = text)
    /\ currentMode (vim w') = Normal
    /\ (currentMode (vim w) = Normal ->
        cursorPosition (vim w') = cursorPositionJustBeforeAnythingHappened (vim w))
    /\ (currentMode (vim w) <> Normal -> cursorPosition (vim w') = first).
Proof.
  intros Hstart Hend ascending first second inclusive text.
  assert (Hsecond : 0 <= line inclusive < TextEditor_getLineCount (document w)).
  { unfold inclusive, second. cbn [line]. destruct ascending; assumption. }
  destruct (getLineAt_inside (document w) inclusive Hsecond) as (lineAtEnd & Hline & _).
  assert (Horder : Position_compareTo first second <= 0).
  { unfold first, second, ascending.
    destruct (Z.leb_spec (Position_compareTo start end_) 0); [assumption |].
    apply compareTo_swap. lia. }
  unfold YankOperator_run. fold ascending.
  assert (Hpair :
    (if ascending
     then (start, mkPosition (line end_) (character end_ + 1))
     else (end_, mkPosition (line start) (character start + 1)))
    = (first, inclusive)).
  { unfold first, inclusive, second. destruct ascending; reflexivity. }
  rewrite Hpair. fold text. rewrite Hline.
  destruct (currentMode (vim w)) eqn:Hmode; cbn [ModeName_eqb];
    try destruct (character inclusive =? JS.length lineAtEnd + 1);
    eexists; eexists;
    (split; [reflexivity |]);
    cbn [document registers vim set_vim Register_put set_currentMode
         set_cursorPosition currentMode cursorPosition
         cursorPositionJustBeforeAnythingHappened];
    repeat (split; [first [reflexivity | assumption | now left | now right
                           | congruence] |]);
    first [reflexivity | congruence].
Qed.

Lemma yank_correct_witness :
  let getText := fun (doc : Document) (a b : Position) => lineText doc a in
  let w := mkWorld (vimState_example Visual 0 (Some YankOperator)) twoLines [] in
  exists w',
    YankOperator_run getText (mkPosition 1 3) (mkPosition 0 2) w = Some w'
    /\ document w' = document w
    /\ cursorPosition (vim w') = mkPosition 0 2.
Proof.
  intros getText w.
  destruct (yank_correct getText (mkPosition 1 3) (mkPosition 0 2) w)
    as (w' & yanked & Hrun & Hdoc & _ & _ & _ & _ & _ & _ & Hcursor).
  - unfold w, twoLines, TextEditor_getLineCount. simpl. lia.
  - unfold w, twoLines, TextEditor_getLineCount. simpl. lia.
  - exists w'. split; [exact Hrun |]. split; [exact Hdoc |].
    apply Hcursor. discriminate.
Defined.

Example yank_in_normal_mode :
  option_map (fun w' => cursorPosition (vim w'))
    (YankOperator_run (fun doc a b => lineText doc a) (mkPosition 0 2) (mkPosition 0 6)
       (mkWorld
          (mkVimState Normal (mkPosition 0 6) (mkPosition 0 2) (mkPosition 0 2) 0
             CharacterWise (mkRecordedState 0 (Some YankOperator) "" [] []))
          twoLines []))
  = Some (mkPosition 0 2).
Proof. reflexivity. Qed.

(* ================================================================= *)
(** ** Find and till *)

(** Too few occurrences: there is no Nth one. *)
Lemma nthOccurrence_none (p : Position) (found : list Z) (n : Z) :
  Z.of_nat (List.length found) < n -> nthOccurrence p found n = None.
Proof.
  intros Hfew. unfold nthOccurrence.
  destruct (Z.ltb_spec n 1); [reflexivity |].
  replace (nth_error found (Z.to_nat (n - 1))) with (@None Z); [reflexivity |].
  symmetry. apply nth_error_None. lia.
Qed.

(** Enough occurrences: the Nth one is found, on the line of the cursor. *)
Lemma nthOccurrence_some (p : Position) (found : list Z) (n : Z) :
  1 <= n <= Z.of_nat (List.length found) ->
  exists column,
    nth_error found (Z.to_nat (n - 1)) = Some column
    /\ nthOccurrence p found n = Some (mkPosition (line p) column).
Proof.
  intros [Hlo Hhi]. unfold nthOccurrence.
  test_is (n <? 1) false.
  destruct (nth_error found (Z.to_nat (n - 1))) as [column |] eqn:E.
  - exists column. split; reflexivity.
  - apply nth_error_None in E. lia.
Qed.

(** C9.  A find or till movement whose target occurs fewer times than the
    count asks for, on the line of the cursor and in the direction of the
    scan, returns the failed range that starts and stops at the cursor, and
    leaves the session as it is. *)
Theorem find_till_fails_in_place
    (k : FindKind) (this : ActionInstance) (position : Position) (w : World) (count : Z) :
  Z.of_nat (List.length
              (occurrencesInDirection k (lineText (document w) position)
                 (nth_error (keysPressed this) 1) (character position)))
    < countOr1 count ->
  execActionWithCount (findMovement k this) position w count
  = (AMovement (mkIMovement position position (Some true) None), w).
Proof.
  intros Hfew.
  destruct k; cbn [findMovement execActionWithCount occurrencesInDirection] in *;
    unfold MoveFindForward_execActionWithCount, MoveFindBackward_execActionWithCount,
           MoveTilForward_execActionWithCount, MoveTilBackward_execActionWithCount,
           tilForwards, tilBackwards, findForwards, findBackwards;
    rewrite (nthOccurrence_none _ _ _ Hfew); reflexivity.
Qed.

Lemma find_till_fails_in_place_witness :
  let w := world_example twoLines 3 None in
  let p := mkPosition 0 0 in
  execActionWithCount (findMovement Find_f find_o) p w 3
  = (AMovement (mkIMovement p p (Some true) None), w).
Proof.
  intros w p.
  apply (find_till_fails_in_place Find_f find_o p w 3).
  vm_compute. reflexivity.
Defined.

(** With enough occurrences right of the cursor, [f] does not fail. *)
Lemma find_forward_succeeds
    (this : ActionInstance) (position : Position) (w : World) (count : Z) :
  1 <= countOr1 count
    <= Z.of_nat (List.length
                   (occurrencesAfter (lineText (document w) position)
                      (nth_error (keysPressed this) 1) (character position))) ->
  exists q,
    line q = line position
    /\ fst (MoveFindForward_execActionWithCount this position w count) = APosition q.
Proof.
  intros Hmany. unfold MoveFindForward_execActionWithCount, findForwards.
  destruct (nthOccurrence_some position _ _ Hmany) as (column & _ & ->).
  destruct (isSome (operator (recordedState (vim w)))).
  - eexists. split; [| reflexivity].
    unfold getRight. destruct (isLineEnd _ _); reflexivity.
  - eexists. split; [| reflexivity]. reflexivity.
Qed.

Example find_second_o :
  execActionWithCount (findMovement Find_f find_o) (mkPosition 0 0)
    (world_example twoLines 2 None) 2
  = (APosition (mkPosition 0 7), world_example twoLines 2 None).
Proof. reflexivity. Qed.

Example till_backwards_o :
  execActionWithCount (findMovement Find_T find_o) (mkPosition 0 10)
    (world_example twoLines 0 None) 0
  = (APosition (mkPosition 0 8), world_example twoLines 0 None).
Proof. reflexivity. Qed.

(* ================================================================= *)
(** ** Word movements under an operator *)

Lemma spanLength_le (f : ascii -> bool) (text : string) :
  (spanLength f text <= String.length text)%nat.
Proof.
  induction text as [| c text IH]; simpl; [lia |].
  destruct (f c); lia.
Qed.

Lemma dropChars_get (n : nat) (text : string) (c : ascii) :
  String.get n text = Some c ->
  exists rest,
    dropChars n text = String c rest
    /\ String.length text = (n + 1 + String.length rest)%nat.
Proof.
  revert text. induction n as [| n IH]; intros [| c' text] H; try discriminate.
  - simpl in H. injection H as ->. exists text. split; reflexivity.
  - simpl in H. destruct (IH text H) as (rest & Hdrop & Hlen).
    exists rest. split; [exact Hdrop | simpl; lia].
Qed.

Lemma lineText_line (doc : Document) (p q : Position) :
  line p = line q -> lineText doc p = lineText doc q.
Proof.
  unfold lineText, TextEditor_getLineAt. now intros ->.
Qed.

Lemma getLineLength_lineText (doc : Document) (p : Position) :
  Position_getLineLength doc (line p) = JS.length (lineText doc p).
Proof.
  unfold Position_getLineLength, lineText, TextEditor_getLineAt. cbn [line].
  destruct (line p <? 0); [reflexivity |].
  destruct (nth_error doc (Z.to_nat (line p))); reflexivity.
Qed.

(** In the word model, the end of the word under a cursor that is on a
    non-blank character is a character of the same line, at the cursor or
    right of it. *)
Lemma currentWordEnd_on_character
    (classOf : ascii -> CharClass) (doc : Document) (p : Position) (c : ascii) :
  0 <= character p ->
  String.get (Z.to_nat (character p)) (lineText doc p) = Some c ->
  classOf c <> Blank ->
  let wordEnd := currentWordEnd classOf doc p in
  line wordEnd = line p
  /\ character p <= character wordEnd < Position_getLineLength doc (line wordEnd).
Proof.
  intros Hcol Hget Hclass wordEnd. subst wordEnd. unfold currentWordEnd.
  destruct (dropChars_get _ _ _ Hget) as (rest & Hdrop & Hlen).
  rewrite Hdrop. cbn [spanLength].
  replace (inClass classOf Blank c) with false
    by (unfold inClass; destruct (classOf c); simpl; congruence).
  rewrite Nat.add_0_r.
  replace (Z.to_nat (character p) <? String.length (lineText doc p))%nat with true
    by (symmetry; apply Nat.ltb_lt; lia).
  cbn [character line]. rewrite Nat2Z.id.
  rewrite (lineText_line doc (mkPosition (line p) (Z.of_nat (Z.to_nat (character p)))) p)
    by reflexivity.
  rewrite Hdrop. cbn [line character].
  rewrite (getLineLength_lineText doc p). unfold JS.length.
  pose proof (spanLength_le (inClass classOf (classOf c)) rest).
  split; [reflexivity | lia].
Qed.



(** With an operator pending, a count of at most 1 runs the operator
    variant of the movement, once. *)
Lemma single_step_under_operator
    (execAction execActionForOperator : Position -> World -> Position)
    (p : Position) (w : World) (count : Z) :
  isSome (operator (recordedState (vim w))) = true ->
  count <= 1 ->
  BaseMovement_execActionWithCount (asStep execAction) (asStep execActionForOperator)
    p w count
  = (APosition (execActionForOperator p w), w).
Proof.
  intros Hop Hcount. unfold BaseMovement_execActionWithCount.
  replace (clampCount count) with 1 by (rewrite clampCount_range; lia).
  change (Z.to_nat 1) with 1%nat. cbn [execActionWithCount_loop].
  unfold temporaryResult_at, asStep. rewrite Hop. reflexivity.
Qed.

(** C7.  [w] as the target of a pending operator.  The bare result is that
    of [execAction], word-right unless the operator is the change operator.
    When it is on the next line, on the first word of that line, the
    movement returns the end of the line of the cursor instead (also when
    it is further down); otherwise, when it is at the end of its line, the
    movement returns the position one column right of it; otherwise the
    bare result itself. *)
Theorem word_right_under_operator
    (getWordRight getCurrentWordEnd : Document -> Position -> Position)
    (isFirstWordOfLine : Document -> Position -> bool)
    (p : Position) (w : World) (o : OperatorClass) :
  operator (recordedState (vim w)) = Some o ->
  let doc := document w in
  let bare := MoveWordBegin_execAction getWordRight getCurrentWordEnd p w in
  let target :=
    MoveWordBegin_execActionForOperator getWordRight getCurrentWordEnd
      isFirstWordOfLine p w in
  (o <> ChangeOperator -> bare = getWordRight doc p)
  /\ (forall count, count <= 1 ->
      execActionWithCount
        (MoveWordBegin getWordRight getCurrentWordEnd isFirstWordOfLine) p w count
      = (APosition target, w))
  /\ (line bare = line p + 1 -> isFirstWordOfLine doc bare = true ->
      target = mkPosition (line p) (Position_getLineLength doc (line p)))
  /\ (line p + 1 < line bare ->
      target = mkPosition (line p) (Position_getLineLength doc (line p)))
  /\ (line bare <= line p
      \/ (line bare = line p + 1 /\ isFirstWordOfLine doc bare = false) ->
      (Position_getLineLength doc (line bare) <= character bare ->
       target = mkPosition (line bare) (character bare + 1))
      /\ (character bare < Position_getLineLength doc (line bare) ->
          target = bare)).
Proof.
  intros Hop doc bare target.
  split; [| split; [| split; [| split]]].
  - intros Hother. unfold bare, MoveWordBegin_execAction. rewrite Hop.
    destruct o; try reflexivity. congruence.
  - intros count Hcount.
    apply (single_step_under_operator
             (MoveWordBegin_execAction getWordRight getCurrentWordEnd)
             (MoveWordBegin_execActionForOperator getWordRight getCurrentWordEnd
                isFirstWordOfLine));
      [now rewrite Hop | exact Hcount].
  - intros Hline Hfirst. unfold target, MoveWordBegin_execActionForOperator.
    fold bare. fold doc. rewrite Hfirst.
    test_is (line bare =? line p + 1) true.
    now rewrite orb_true_r.
  - intros Hline. unfold target, MoveWordBegin_execActionForOperator.
    fold bare. fold doc.
    test_is (line bare >? line p + 1) true.
    reflexivity.
  - intros Hstay. unfold target, MoveWordBegin_execActionForOperator.
    fold bare. fold doc.
    replace ((line bare >? line p + 1)
             || ((line bare =? line p + 1) && isFirstWordOfLine doc bare))
      with false.
    + unfold isLineEnd. split; intros Hcol.
      * test_is (character bare >=? Position_getLineLength doc (line bare)) true.
        reflexivity.
      * test_is (character bare >=? Position_getLineLength doc (line bare)) false.
        reflexivity.
    + symmetry. apply orb_false_iff. split.
      * rewrite Z.gtb_ltb. apply Z.ltb_ge. lia.
      * destruct Hstay as [Hline | [Hline ->]]; [| apply andb_false_r].
        test_is (line bare =? line p + 1) false.
        reflexivity.
Qed.

Lemma word_right_under_operator_witness :
  let w := world_example twoLines 0 (Some DeleteOperator) in
  let p := mkPosition 0 6 in
  wordRight wordClass (document w) p = mkPosition 1 2
  /\ execActionWithCount
       (MoveWordBegin (wordRight wordClass) (currentWordEnd wordClass)
          (firstWordOfLine wordClass)) p w 0
     = (APosition (mkPosition 0 11), w).
Proof.
  intros w p.
  destruct (word_right_under_operator
              (wordRight wordClass) (currentWordEnd wordClass)
              (firstWordOfLine wordClass) p w DeleteOperator eq_refl)
    as (_ & Hrun & Hcross & _).
  split; [reflexivity |].
  rewrite (Hrun 0 ltac:(lia)). rewrite Hcross; reflexivity.
Defined.

Example dw_within_the_line :
  execActionWithCount
    (MoveWordBegin (wordRight wordClass) (currentWordEnd wordClass)
       (firstWordOfLine wordClass))
    (mkPosition 0 0) (world_example twoLines 0 (Some DeleteOperator)) 0
  = (APosition (mkPosition 0 6), world_example twoLines 0 (Some DeleteOperator)).
Proof. reflexivity. Qed.

Example three_w_under_delete :
  fst (execActionWithCount
         (MoveWordBegin (wordRight wordClass) (currentWordEnd wordClass)
            (firstWordOfLine wordClass))
         (mkPosition 0 0)
         (world_example [ "one two three four" ] 3 (Some DeleteOperator)) 3)
  = APosition (mkPosition 0 14).
Proof. reflexivity. Qed.

(* ================================================================= *)
(** ** More on key sequences *)

Lemma tokensMatch_sym (l r : string) : tokensMatch l r -> tokensMatch r l.
Proof. unfold tokensMatch. intuition auto. Qed.

Lemma compareKeypressSequence_loop_sym (one two : list string) :
  compareKeypressSequence_loop one two = compareKeypressSequence_loop two one.
Proof.
  apply Bool.eq_iff_eq_true.
  revert two. induction one as [| l one IH]; intros [| r two]; try tauto.
  rewrite !compareKeypressSequence_loop_cons, IH.
  split; intros [Hm Hrest]; (split; [apply tokensMatch_sym |]); assumption.
Qed.

(** X1.  [compareKeypressSequence] does not care which of the two
    sequences is the pattern: it answers the same with its arguments
    exchanged. *)
Theorem compareKeypressSequence_symmetric (one two : list string) :
  compareKeypressSequence one two = compareKeypressSequence two one.
Proof.
  unfold compareKeypressSequence.
  rewrite (Nat.eqb_sym (List.length one) (List.length two)).
  destruct (Nat.eqb (List.length two) (List.length one)); cbn [negb];
    [apply compareKeypressSequence_loop_sym | reflexivity].
Qed.

Lemma not_wildcard_no_digit_match (l r : string) :
  ~ isWildcardToken l -> ~ isWildcardToken r -> tokensMatch l r -> l = r.
Proof.
  unfold isWildcardToken, tokensMatch. intuition congruence.
Qed.

(** X2.  Between two sequences without wildcard tokens the comparison is
    equality: a literal key sequence is matched by itself and by nothing
    else. *)
Theorem literal_sequences_match_when_equal (one two : list string) :
  (forall t, In t one -> ~ isWildcardToken t) ->
  (forall t, In t two -> ~ isWildcardToken t) ->
  (compareKeypressSequence one two = true <-> one = two).
Proof.
  intros Hone Htwo. unfold compareKeypressSequence. split.
  - destruct (Nat.eqb_spec (List.length one) (List.length two)) as [Hlen | Hlen];
      cbn [negb]; [| discriminate].
    revert two Htwo Hlen.
    induction one as [| l one IH]; intros [| r two] Htwo Hlen H; try discriminate;
      [reflexivity |].
    apply compareKeypressSequence_loop_cons in H as [Hm Hrest].
    f_equal.
    + apply not_wildcard_no_digit_match; [apply Hone | apply Htwo | exact Hm]; now left.
    + apply IH.
      * intros t Ht. apply Hone. now right.
      * intros t Ht. apply Htwo. now right.
      * simpl in Hlen. congruence.
      * exact Hrest.
  - intros <-. rewrite Nat.eqb_refl. cbn [negb].
    clear Hone Htwo. induction one as [| l one IH]; [reflexivity |].
    apply compareKeypressSequence_loop_cons. split; [| exact IH].
    unfold tokensMatch. tauto.
Qed.

Lemma literal_sequences_match_when_equal_witness :
  compareKeypressSequence ["g"; "g"] ["g"; "g"] = true <-> ["g"; "g"] = ["g"; "g"].
Proof.
  apply (literal_sequences_match_when_equal ["g"; "g"] ["g"; "g"]);
    intros t [<- | [<- | []]]; intros [H | [H | H]]; discriminate H.
Defined.

(* ================================================================= *)
(** ** Typing a command key by key *)

Lemma compareKeypressSequence_loop_firstn (n : nat) (one two : list string) :
  compareKeypressSequence_loop one two = true ->
  compareKeypressSequence_loop (firstn n one) (firstn n two) = true.
Proof.
  revert one two. induction n as [| n IH]; intros [| l one] [| r two] H;
    try reflexivity.
  cbn [firstn]. apply compareKeypressSequence_loop_cons in H as [Hm Hrest].
  apply compareKeypressSequence_loop_cons. split; [exact Hm | now apply IH].
Qed.

(** A sequence that matches the keys of an action matches, cut to any
    length, the keys cut to that length. *)
Lemma compareKeypressSequence_prefix (n : nat) (keys typed : list string) :
  compareKeypressSequence keys typed = true ->
  compareKeypressSequence
    (firstn (List.length (firstn n typed)) keys) (firstn n typed) = true.
Proof.
  unfold compareKeypressSequence.
  destruct (Nat.eqb_spec (List.length keys) (List.length typed)) as [Hlen | Hlen];
    cbn [negb]; [| discriminate].
  intros H.
  assert (Hcut : firstn (List.length (firstn n typed)) keys = firstn n keys).
  { rewrite length_firstn, <- Hlen.
    destruct (Nat.le_ge_cases n (List.length keys)) as [Hle | Hge].
    - now rewrite Nat.min_l.
    - rewrite Nat.min_r by assumption.
      rewrite !firstn_all2; [reflexivity | assumption | apply Nat.le_refl]. }
  rewrite Hcut, !length_firstn, Hlen, Nat.eqb_refl. cbn [negb].
  now apply compareKeypressSequence_loop_firstn.
Qed.

Lemma doesActionApply_could_on_prefix
    (this : BaseAction) (vimState : VimState) (typed : list string) (n : nat) :
  BaseAction_doesActionApply this vimState typed = true ->
  BaseAction_couldActionApply this vimState (firstn n typed) = true.
Proof.
  unfold BaseAction_doesActionApply, BaseAction_couldActionApply.
  destruct (modes_lack (modes this) (currentMode vimState)); [discriminate |].
  destruct (compareKeypressSequence (keys this) typed) eqn:Hkeys;
    cbn [negb]; [| discriminate].
  rewrite (compareKeypressSequence_prefix n _ _ Hkeys). cbn [negb].
  tauto.
Qed.

(** X3.  An action that applies to a key buffer (by the tests it inherits
    from [BaseAction]) could apply to the buffer as it was after each of
    its keys: to every prefix of it, the empty one and the whole included. *)
Theorem applies_then_could_apply_to_prefixes
    (this : BaseAction) (vimState : VimState) (typed : list string) :
  BaseAction_doesActionApply this vimState typed = true ->
  forall n : nat,
    BaseAction_couldActionApply this vimState (firstn n typed) = true.
Proof.
  intros H n. now apply doesActionApply_could_on_prefix.
Qed.

Lemma applies_then_could_apply_to_prefixes_witness :
  BaseAction_couldActionApply (base MoveNonBlankFirst)
    (vimState_example Normal 0 None) (firstn 1 ["g"; "g"]) = true.
Proof.
  apply (applies_then_could_apply_to_prefixes (base MoveNonBlankFirst)
           (vimState_example Normal 0 None) ["g"; "g"]).
  reflexivity.
Defined.

Lemma could_apply_excludes_no_match
    (allActions : list ActionClass) (typed : list string) (vimState : VimState) :
  (exists a, In a allActions /\ couldActionApply a vimState typed = true) ->
  getRelevantAction allActions typed vimState <> TheState NoPossibleMatch.
Proof.
  intros Hsome. unfold getRelevantAction.
  rewrite getRelevantAction_loop_spec.
  destruct (find _ allActions); [discriminate |].
  replace (existsb _ allActions) with true; [discriminate |].
  symmetry. apply existsb_exists. exact Hsome.
Qed.

(** X4.  A registered action that inherits its tests from [BaseAction] and
    applies to a key buffer can be typed: after each of its keys the
    matcher answers with an action or with [WaitingOnKeys], never with
    [NoPossibleMatch]. *)
Theorem matching_keys_are_never_rejected_on_the_way
    (allActions : list ActionClass) (name : string) (this : BaseAction)
    (vimState : VimState) (typed : list string) (n : nat) :
  In (plainAction name this) allActions ->
  BaseAction_doesActionApply this vimState typed = true ->
  getRelevantAction allActions (firstn n typed) vimState <> TheState NoPossibleMatch.
Proof.
  intros Hin Happlies. apply could_apply_excludes_no_match.
  exists (plainAction name this). split; [exact Hin |].
  cbn [plainAction couldActionApply].
  now apply doesActionApply_could_on_prefix.
Qed.

Lemma matching_keys_are_never_rejected_on_the_way_witness :
  getRelevantAction someActions (firstn 1 ["g"; "g"]) (vimState_example Normal 0 None)
  <> TheState NoPossibleMatch
  /\ getRelevantAction someActions (firstn 0 ["g"; "g"]) (vimState_example Normal 0 None)
     <> TheState NoPossibleMatch.
Proof.
  assert (Hin : In (plainAction "MoveNonBlankFirst"
                      (mkBaseAction BaseMovement_modes ["g"; "g"] false false))
                   someActions).
  { right. right. right. left. reflexivity. }
  split;
    apply (matching_keys_are_never_rejected_on_the_way someActions _ _
             (vimState_example Normal 0 None) ["g"; "g"] _ Hin);
    reflexivity.
Defined.

(* ================================================================= *)
(** ** Registration order *)

Lemma find_app_some {A : Type} (f : A -> bool) (l more : list A) (a : A) :
  find f l = Some a -> find f (l ++ more) = Some a.
Proof.
  induction l as [| x l IH]; simpl; [discriminate |].
  destruct (f x); [trivial | exact IH].
Qed.

Lemma getRelevantAction_app_match
    (allActions more : list ActionClass) (typed : list string) (vimState : VimState)
    (matched : ActionInstance) :
  getRelevantAction allActions typed vimState = TheAction matched ->
  getRelevantAction (allActions ++ more) typed vimState = TheAction matched.
Proof.
  unfold getRelevantAction. rewrite !getRelevantAction_loop_spec.
  destruct (find _ allActions) as [a |] eqn:Hfind; [| discriminate].
  intros H. now rewrite (find_app_some _ _ more _ Hfind).
Qed.

(** X5.  Registering further actions leaves every exact match as it is:
    the action the matcher returned for a key buffer is still the one it
    returns, since [RegisterAction] appends and the first registered match
    wins. *)
Theorem registering_keeps_earlier_matches
    (allActions later : list ActionClass) (typed : list string) (vimState : VimState)
    (matched : ActionInstance) :
  getRelevantAction allActions typed vimState = TheAction matched ->
  getRelevantAction (fold_left RegisterAction later allActions) typed vimState
  = TheAction matched.
Proof.
  revert allActions. induction later as [| a later IH]; intros allActions H.
  - exact H.
  - cbn [fold_left]. apply IH. unfold RegisterAction.
    now apply getRelevantAction_app_match.
Qed.

Lemma registering_keeps_earlier_matches_witness :
  getRelevantAction
    (fold_left RegisterAction [MoveLineBegin; CommandNumber] [CommandNumber])
    ["0"] (vimState_example Normal 4 None)
  = TheAction (mkActionInstance "CommandNumber" []).
Proof.
  apply (registering_keeps_earlier_matches [CommandNumber] [MoveLineBegin; CommandNumber]).
  reflexivity.
Defined.

(* ================================================================= *)
(** ** The count prefix *)

(** A digit key is one character, a decimal digit, and [parseInt] reads
    its value. *)
Lemma decimal_digit_parsed (key : string) :
  isDecimalDigit key ->
  exists c : ascii,
    key = String c EmptyString
    /\ isDigitChar c = true
    /\ parseInt10 key = Some (digitValue c)
    /\ 0 <= digitValue c <= 9
    /\ (digitValue c = 0 <-> key = "0").
Proof.
  unfold isDecimalDigit, decimalDigits. intros H. simpl in H.
  repeat (destruct H as [<- | H];
          [eexists; repeat split; try reflexivity; try (vm_compute; discriminate);
           try discriminate |]).
  contradiction.
Qed.

Lemma CommandNumber_accepts_digit (vimState : VimState) (key : string) :
  In (currentMode vimState) [Normal; Visual; VisualLine] ->
  isDecimalDigit key ->
  doesActionApply CommandNumber vimState [key]
  = (negb (String.eqb key "0") || (count (recordedState vimState) >? 0)).
Proof.
  intros Hmode Hkey.
  assert (Hbase : BaseAction_doesActionApply CommandNumber_base vimState [key] = true).
  { unfold BaseAction_doesActionApply, CommandNumber_base.
    cbn [keys mustBeFirstKey isBaseOperator modes].
    rewrite andb_false_r.
    replace (compareKeypressSequence ["<number>"] [key]) with true.
    - simpl in Hmode. destruct Hmode as [<- | [<- | [<- | []]]]; reflexivity.
    - unfold isDecimalDigit, decimalDigits in Hkey. simpl in Hkey.
      repeat (destruct Hkey as [<- | Hkey]; [reflexivity |]). contradiction. }
  cbn [doesActionApply CommandNumber]. rewrite Hbase.
  cbn [firstKeyIsZero nth_error andb].
  destruct (String.eqb key "0"), (count (recordedState vimState) >? 0); reflexivity.
Qed.

Lemma Number_of_exact (n : Z) : Z.abs n < 2 ^ 53 -> Number_of n = Some n.
Proof.
  intros H. unfold Number_of, roundToDouble.
  test_is (Z.abs n <? 2 ^ 53) true.
  replace (Z.abs n <? 2 ^ 1024) with true; [reflexivity |].
  symmetry. apply Z.ltb_lt.
  apply Z.lt_trans with (2 ^ 53); [exact H | reflexivity].
Qed.

(** The integer a run of digits writes has as many digits as the run. *)
Lemma parseDigits_bound (s : string) :
  forall (acc : Z) (seen : bool) (n : Z),
    0 <= acc ->
    parseDigits acc seen s = Some n ->
    n < (acc + 1) * 10 ^ Z.of_nat (String.length s).
Proof.
  induction s as [| c s IH]; intros acc seen n Hacc H.
  - cbn [parseDigits] in H. destruct seen; [| discriminate].
    injection H as <-. cbn. lia.
  - cbn [parseDigits] in H. cbn [String.length].
    rewrite Nat2Z.inj_succ, Z.pow_succ_r by lia.
    assert (Hpow : 0 < 10 ^ Z.of_nat (String.length s)) by (apply Z.pow_pos_nonneg; lia).
    destruct (isDigitChar c) eqn:Hdigit.
    + assert (Hvalue : 0 <= digitValue c <= 9).
      { clear - Hdigit. destruct c as [[] [] [] [] [] [] [] []];
          try discriminate Hdigit; vm_compute; split; discriminate. }
      apply IH in H; [| lia]. nia.
    + destruct seen; [| discriminate]. injection H as <-. nia.
Qed.

Lemma length_of_digits (digits : list string) :
  Forall isDecimalDigit digits ->
  String.length (String.concat "" digits) = List.length digits.
Proof.
  induction 1 as [| key digits Hkey _ IH]; [reflexivity |].
  destruct (decimal_digit_parsed key Hkey) as (c & -> & _).
  replace (String.concat "" (String c "" :: digits))
    with (String c (String.concat "" digits)) by (destruct digits; reflexivity).
  cbn [String.length List.length]. now rewrite IH.
Qed.

(** The count after a run of digit keys, from a count that is positive or
    under a first digit that is not [0]: the integer the digits write
    after the count, as long as that is a double. *)
Lemma typeCount_digits (digits : list string) (position : Position) :
  Forall isDecimalDigit digits ->
  forall w : World,
    In (currentMode (vim w)) [Normal; Visual; VisualLine] ->
    0 <= count (recordedState (vim w)) ->
    (0 < count (recordedState (vim w)) \/ hd "1" digits <> "0") ->
    exists n,
      parseDigits (count (recordedState (vim w))) true (String.concat "" digits) = Some n
      /\ count (recordedState (vim w)) <= n
      /\ (digits <> [] -> 0 < n)
      /\ (n < 2 ^ 53 ->
          typeCount digits position w = Some (set_vim (set_count n (vim w)) w)).
Proof.
  induction 1 as [| key digits Hkey _ IH]; intros w Hmode Hcount Hstart.
  - exists (count (recordedState (vim w))). cbn [String.concat parseDigits typeCount].
    repeat split; try lia; try congruence.
    destruct w as [[m cp cs cj dc rm [n o r a k]] doc regs]. reflexivity.
  - destruct (decimal_digit_parsed key Hkey) as (c & -> & Hdigit & Hparse & Hrange & Hzero).
    set (w1 := set_vim (set_count (count (recordedState (vim w)) * 10 + digitValue c)
                          (vim w)) w).
    assert (Hnext : 0 < count (recordedState (vim w1))).
    { cbn [w1 vim set_vim set_count recordedState count].
      destruct Hstart as [Hpos | Hhd]; [lia |].
      cbn [hd] in Hhd. destruct (Z.eq_dec (digitValue c) 0) as [E | E]; [| lia].
      apply Hzero in E. contradiction. }
    destruct (IH w1) as (n & Hparsed & Hle & _ & Hrun).
    { exact Hmode. }
    { lia. }
    { left. exact Hnext. }
    exists n.
    assert (Hconcat :
      String.concat "" (String c "" :: digits) = String c (String.concat "" digits)).
    { destruct digits; reflexivity. }
    rewrite Hconcat. cbn [parseDigits]. rewrite Hdigit.
    cbn [w1 vim set_vim set_count recordedState count] in Hparsed, Hle, Hnext.
    replace (10 * count (recordedState (vim w)) + digitValue c)
      with (count (recordedState (vim w)) * 10 + digitValue c) by lia.
    split; [exact Hparsed |].
    split; [lia |].
    split; [intros _; lia |].
    intros Hdouble. cbn [typeCount].
    rewrite (CommandNumber_accepts_digit _ _ Hmode Hkey).
    replace (negb (String.eqb (String c "") "0") || (count (recordedState (vim w)) >? 0))
      with true.
    2:{ symmetry. apply orb_true_iff. destruct Hstart as [Hpos | Hhd].
        - right. rewrite Z.gtb_ltb. now apply Z.ltb_lt.
        - left. cbn [hd] in Hhd. apply negb_true_iff.
          now apply String.eqb_neq. }
    unfold CommandNumber_exec. cbn [keysPressed nth_error]. rewrite Hparse.
    rewrite (Number_of_exact (count (recordedState (vim w)) * 10)) by lia.
    rewrite (Number_of_exact (count (recordedState (vim w)) * 10 + digitValue c)) by lia.
    fold w1. now apply Hrun.
Qed.

(** X6.  Typing a decimal numeral of at most 15 digits that does not start
    with [0], in Normal, Visual or VisualLine mode and with no count yet:
    every key is taken by [CommandNumber], and the count ends as the
    number [parseInt] reads from the whole numeral, which is the integer
    the numeral writes; nothing else of the session changes.  (The
    integers of up to 15 digits are doubles; see [typed_count_rounds] for
    a longer numeral.) *)
Theorem typed_count_is_the_numeral
    (digits : list string) (position : Position) (w : World) :
  In (currentMode (vim w)) [Normal; Visual; VisualLine] ->
  count (recordedState (vim w)) = 0 ->
  Forall isDecimalDigit digits ->
  hd "0" digits <> "0" ->
  (List.length digits <= 15)%nat ->
  exists n,
    parseInt10 (String.concat "" digits) = Some n
    /\ parseDigits 0 false (String.concat "" digits) = Some n
    /\ 0 < n < 10 ^ 15
    /\ typeCount digits position w = Some (set_vim (set_count n (vim w)) w).
Proof.
  intros Hmode Hzero Hdigits Hhd Hshort.
  destruct digits as [| key digits]; [now contradiction Hhd |].
  destruct (typeCount_digits (key :: digits) position Hdigits w Hmode)
    as (n & Hparsed & _ & Hpos & Hrun).
  { lia. }
  { right. exact Hhd. }
  rewrite Hzero in Hparsed.
  assert (Hbound : n < 10 ^ 15).
  { apply parseDigits_bound in Hparsed; [| lia].
    rewrite (length_of_digits _ Hdigits) in Hparsed.
    apply Z.lt_le_trans with (1 := Hparsed). rewrite Z.mul_1_l.
    apply Z.pow_le_mono_r; lia. }
  assert (Hn : 0 < n) by (apply Hpos; discriminate).
  assert (Hexact : parseDigits 0 false (String.concat "" (key :: digits)) = Some n).
  { inversion Hdigits as [| k ks Hkey _]; subst.
    destruct (decimal_digit_parsed key Hkey) as (c & -> & Hdigit & _).
    assert (Hconcat :
      String.concat "" (String c "" :: digits) = String c (String.concat "" digits)).
    { destruct digits; reflexivity. }
    rewrite Hconcat in *. cbn [parseDigits] in *. rewrite Hdigit in *. exact Hparsed. }
  assert (Hdouble : n < 2 ^ 53).
  { apply Z.lt_trans with (1 := Hbound). reflexivity. }
  exists n. split; [| split; [exact Hexact | split; [lia | now apply Hrun]]].
  inversion Hdigits as [| k ks Hkey _]; subst.
  destruct (decimal_digit_parsed key Hkey) as (c & -> & Hdigit & _).
  assert (Hconcat :
    String.concat "" (String c "" :: digits) = String c (String.concat "" digits)).
  { destruct digits; reflexivity. }
  rewrite Hconcat in *. unfold parseInt10. cbn [skipWhiteSpace].
  replace (isWhiteSpace c) with false.
  2:{ clear - Hdigit. destruct c as [[] [] [] [] [] [] [] []]; try reflexivity;
        discriminate Hdigit. }
  assert (Hread :
    match String c (String.concat "" digits) with
    | String "-"%char rest => option_map Z.opp (parseDigits 0 false rest)
    | String "+"%char rest => parseDigits 0 false rest
    | rest => parseDigits 0 false rest
    end = Some n).
  { destruct c as [[] [] [] [] [] [] [] []]; try discriminate Hdigit; exact Hexact. }
  rewrite Hread. apply Number_of_exact. lia.
Qed.

Lemma typed_count_is_the_numeral_witness :
  exists n,
    parseInt10 (String.concat "" ["3"; "0"; "7"]) = Some n
    /\ parseDigits 0 false (String.concat "" ["3"; "0"; "7"]) = Some n
    /\ 0 < n < 10 ^ 15
    /\ typeCount ["3"; "0"; "7"] (mkPosition 0 0) (world_example twoLines 0 None)
       = Some (set_vim (set_count n (vim (world_example twoLines 0 None)))
                 (world_example twoLines 0 None)).
Proof.
  apply (typed_count_is_the_numeral ["3"; "0"; "7"] (mkPosition 0 0)
           (world_example twoLines 0 None)).
  - left. reflexivity.
  - reflexivity.
  - repeat constructor; unfold isDecimalDigit, decimalDigits; simpl; tauto.
  - discriminate.
  - simpl. lia.
Defined.

(** Beyond the doubles the count and [parseInt] part: the 17 keys of
    88683873806956042 leave a count that is not what [parseInt] reads from
    the numeral, each being rounded on its own way. *)
Example typed_count_rounds :
  let keys := ["8"; "8"; "6"; "8"; "3"; "8"; "7"; "3"; "8"; "0"; "6"; "9"; "5"; "6";
               "0"; "4"; "2"] in
  option_map (fun w => count (recordedState (vim w)))
    (typeCount keys (mkPosition 0 0) (world_example twoLines 0 None))
  = Some 88683873806956032
  /\ parseInt10 (String.concat "" keys) = Some 88683873806956048.
Proof. split; vm_compute; reflexivity. Qed.

Example typed_307 :
  option_map (fun w => count (recordedState (vim w)))
    (typeCount ["3"; "0"; "7"] (mkPosition 0 0) (world_example twoLines 0 None))
  = Some 307.
Proof. reflexivity. Qed.

Example typed_leading_zero :
  typeCount ["0"; "7"] (mkPosition 0 0) (world_example twoLines 0 None) = None.
Proof. reflexivity. Qed.

(* ================================================================= *)
(** ** Counted movements that yield positions *)

(** One turn of the loop on an iteration that yields a position. *)
Lemma loop_step_position
    (execAction execActionForOperator : Step)
    (n : nat) (i count : Z) (p q : Position) (result : MoveResult) (w w1 : World) :
  temporaryResult_at execAction execActionForOperator i count p w = (APosition q, w1) ->
  execActionWithCount_loop execAction execActionForOperator (S n) i count p result w
  = execActionWithCount_loop execAction execActionForOperator n (i + 1) count q
      (APosition q) w1.
Proof.
  intros Hstep. cbn [execActionWithCount_loop]. now rewrite Hstep.
Qed.

Lemma runSteps_step (f : PositionStep) (n : nat) (p q : Position) (w w1 : World) :
  f p w = (q, w1) -> runSteps (S n) f p w = runSteps n f q w1.
Proof. intros H. cbn [runSteps]. now rewrite H. Qed.

Lemma runSteps_add (f : PositionStep) (m n : nat) :
  forall (p : Position) (w : World),
    runSteps (m + n) f p w
    = runSteps n f (fst (runSteps m f p w)) (snd (runSteps m f p w)).
Proof.
  induction m as [| m IH]; intros p w; [reflexivity |].
  destruct (f p w) as [q w1] eqn:E.
  change (S m + n)%nat with (S (m + n)).
  rewrite !(runSteps_step f _ p q w w1 E). apply IH.
Qed.

Section PositionMovements.

(** A movement whose single step and operator step yield positions; the
    single step may write to the session, the recorded state apart. *)
Variable execAction : PositionStep.
Variable execActionForOperator : PositionStep.

Hypothesis execAction_keeps_recordedState : forall (q : Position) (v : World),
  recordedState (vim (snd (execAction q v))) = recordedState (vim v).

Lemma runSteps_recordedState (n : nat) :
  forall (p : Position) (w : World),
    recordedState (vim (snd (runSteps n execAction p w))) = recordedState (vim w).
Proof.
  induction n as [| n IH]; intros p w; [reflexivity |].
  destruct (execAction p w) as [q w1] eqn:E.
  rewrite (runSteps_step _ _ p q w w1 E), IH.
  pose proof (execAction_keeps_recordedState p w) as H. now rewrite E in H.
Qed.

(** Without an operator the loop takes the step, over and over. *)
Lemma loop_of_positions_bare (n : nat) :
  forall (w : World) (i count : Z) (p : Position) (result : MoveResult),
    operator (recordedState (vim w)) = None ->
    execActionWithCount_loop (asPositionStep execAction)
      (asPositionStep execActionForOperator) (S n) i count p result w
    = (APosition (fst (runSteps (S n) execAction p w)),
       snd (runSteps (S n) execAction p w)).
Proof.
  induction n as [| n IH]; intros w i count p result Hop;
    destruct (execAction p w) as [q w1] eqn:E;
    rewrite (loop_step_position _ _ _ _ _ _ q _ _ w1)
      by (unfold temporaryResult_at, asPositionStep; now rewrite Hop, E);
    rewrite (runSteps_step _ _ p q w w1 E).
  - reflexivity.
  - apply IH.
    pose proof (execAction_keeps_recordedState p w) as H. rewrite E in H.
    cbn [snd] in H. now rewrite H.
Qed.

(** With an operator pending the last turn takes the operator step. *)
Lemma loop_of_positions_operator (n : nat) :
  forall (w : World) (i count : Z) (p : Position) (result : MoveResult),
    isSome (operator (recordedState (vim w))) = true ->
    Z.of_nat (S n) + i = count ->
    execActionWithCount_loop (asPositionStep execAction)
      (asPositionStep execActionForOperator) (S n) i count p result w
    = asPositionStep execActionForOperator
        (fst (runSteps n execAction p w)) (snd (runSteps n execAction p w)).
Proof.
  induction n as [| n IH]; intros w i count p result Hop Hcount.
  - cbn [runSteps fst snd]. unfold asPositionStep at 3.
    destruct (execActionForOperator p w) as [q w1] eqn:E.
    rewrite (loop_step_position _ _ _ _ _ _ q _ _ w1).
    + reflexivity.
    + unfold temporaryResult_at, asPositionStep. rewrite Hop.
      test_is (i =? count - 1) true. cbn [andb]. now rewrite E.
  - destruct (execAction p w) as [q w1] eqn:E.
    rewrite (loop_step_position _ _ _ _ _ _ q _ _ w1).
    + rewrite (runSteps_step _ _ p q w w1 E). apply IH; [| lia].
      pose proof (execAction_keeps_recordedState p w) as H. rewrite E in H.
      cbn [snd] in H. now rewrite H.
    + unfold temporaryResult_at, asPositionStep. rewrite Hop.
      test_is (i =? count - 1) false. cbn [andb]. now rewrite E.
Qed.

End PositionMovements.

(** X7.  A movement whose steps yield positions and whose single step
    leaves the recorded state alone, run with a count; the steps may write
    to the rest of the session, which is threaded from step to step.
    Without a pending operator the result is the single step taken as
    often as the clamped count says; with one, the operator step taken
    once after the single step has been taken one time fewer. *)
Theorem counted_positions_iterate
    (execAction execActionForOperator : PositionStep)
    (p : Position) (w : World) (count : Z) :
  (forall (q : Position) (v : World),
     recordedState (vim (snd (execAction q v))) = recordedState (vim v)) ->
  let n := Z.to_nat (Z.max 1 (Z.min count 99999)) in
  let run :=
    BaseMovement_execActionWithCount
      (asPositionStep execAction) (asPositionStep execActionForOperator) in
  (operator (recordedState (vim w)) = None ->
   run p w count
   = (APosition (fst (runSteps n execAction p w)), snd (runSteps n execAction p w)))
  /\ (isSome (operator (recordedState (vim w))) = true ->
      run p w count
      = asPositionStep execActionForOperator
          (fst (runSteps (n - 1) execAction p w))
          (snd (runSteps (n - 1) execAction p w))).
Proof.
  intros Hkeeps n run. unfold run, BaseMovement_execActionWithCount.
  rewrite clampCount_range. fold n.
  destruct n as [| m] eqn:Hn; [lia |].
  split; intros Hop.
  - now apply loop_of_positions_bare.
  - rewrite (loop_of_positions_operator _ _ Hkeeps m w) by (try exact Hop; lia).
    now replace (S m - 1)%nat with m by lia.
Qed.

Lemma counted_positions_iterate_witness :
  let w := world_example [ "one"; "two"; "three" ] 0 (Some DeleteOperator) in
  BaseMovement_execActionWithCount
    (asPositionStep MoveDown_execAction) (asPositionStep MoveDown_execActionForOperator)
    (mkPosition 0 0) w 2
  = (APosition (mkPosition 2 3), set_vim (set_currentRegisterMode LineWise (vim w)) w).
Proof.
  intros w.
  destruct (counted_positions_iterate MoveDown_execAction MoveDown_execActionForOperator
              (mkPosition 0 0) w 2) as [_ Hoperator].
  - intros q v. reflexivity.
  - rewrite Hoperator by reflexivity. reflexivity.
Defined.

(** X8.  Without a pending operator, counts add up, for a movement whose
    single step yields a position and leaves the recorded state alone:
    running it with count [m + n] is running it with count [m] and then,
    from the position and the session that leaves, with count [n] (for
    counts from 1 that stay within the clamp). *)
Theorem counted_positions_add
    (execAction execActionForOperator : PositionStep)
    (p : Position) (w : World) (m n : Z) :
  (forall (q : Position) (v : World),
     recordedState (vim (snd (execAction q v))) = recordedState (vim v)) ->
  operator (recordedState (vim w)) = None ->
  1 <= m -> 1 <= n -> m + n <= 99999 ->
  let run :=
    BaseMovement_execActionWithCount
      (asPositionStep execAction) (asPositionStep execActionForOperator) in
  exists (q : Position) (w1 : World),
    run p w m = (APosition q, w1)
    /\ run p w (m + n) = run q w1 n.
Proof.
  intros Hkeeps Hop Hm Hn Hsum run. unfold run, BaseMovement_execActionWithCount.
  rewrite !clampCount_range.
  replace (Z.max 1 (Z.min m 99999)) with m by lia.
  replace (Z.max 1 (Z.min n 99999)) with n by lia.
  replace (Z.max 1 (Z.min (m + n) 99999)) with (m + n) by lia.
  destruct (Z.to_nat m) as [| m'] eqn:Em; [lia |].
  destruct (Z.to_nat n) as [| n'] eqn:En; [lia |].
  destruct (Z.to_nat (m + n)) as [| s'] eqn:Es; [lia |].
  rewrite !(loop_of_positions_bare _ _ Hkeeps) by exact Hop.
  eexists. eexists. split; [reflexivity |].
  rewrite (loop_of_positions_bare _ _ Hkeeps).
  - replace (S s') with (S m' + S n')%nat by lia.
    now rewrite runSteps_add.
  - now rewrite (runSteps_recordedState _ Hkeeps).
Qed.

Lemma ToggleCaseAndMoveForward_keeps_recordedState
    (getText : Document -> Position -> Position -> string)
    (replace : Document -> Position -> Position -> string -> Document)
    (q : Position) (v : World) :
  recordedState (vim (snd (ToggleCaseAndMoveForward_execAction getText replace q v)))
  = recordedState (vim v).
Proof.
  unfold ToggleCaseAndMoveForward_execAction, ToggleCaseOperator_run. cbn [snd].
  destruct (negb (ToggleCase_toggled (getText (document v) q
                    (mkPosition (line q) (character q + 1)))
                  =? getText (document v) q (mkPosition (line q) (character q + 1)))%string);
    reflexivity.
Qed.

Lemma counted_positions_add_witness :
  let w := world_example [ "abc" ] 0 None in
  let run :=
    BaseMovement_execActionWithCount
      (asPositionStep (ToggleCaseAndMoveForward_execAction getText_sample replace_sample))
      (asPositionStep (ToggleCaseAndMoveForward_execAction getText_sample replace_sample)) in
  exists (q : Position) (w1 : World),
    run (mkPosition 0 0) w 2 = (APosition q, w1)
    /\ run (mkPosition 0 0) w (2 + 1) = run q w1 1.
Proof.
  intros w run.
  apply (counted_positions_add
           (ToggleCaseAndMoveForward_execAction getText_sample replace_sample)
           (ToggleCaseAndMoveForward_execAction getText_sample replace_sample)
           (mkPosition 0 0) w 2 1); [| reflexivity | lia | lia | lia].
  intros q v. apply ToggleCaseAndMoveForward_keeps_recordedState.
Defined.

Example three_toggles :
  let w := world_example [ "abc" ] 0 None in
  let '(result, w1) :=
    BaseMovement_execActionWithCount
      (asPositionStep (ToggleCaseAndMoveForward_execAction getText_sample replace_sample))
      (asPositionStep (ToggleCaseAndMoveForward_execAction getText_sample replace_sample))
      (mkPosition 0 0) w 3 in
  result = APosition (mkPosition 0 3) /\ document w1 = [ "ABC" ].
Proof. split; reflexivity. Qed.

(* ================================================================= *)
(** ** Commands run with a count *)

Lemma execCount_loop_iter
    (n : nat) (exec : Position -> World -> World) (position : Position) (w : World) :
  execCount_loop n exec position w = Nat.iter n (exec position) w.
Proof.
  revert w. induction n as [| n IH]; intros w; [reflexivity |].
  cbn [execCount_loop]. rewrite IH. now rewrite Nat.iter_succ_r.
Qed.

(** X9.  [BaseCommand.execCount] runs a command that is not count-aware
    once, whatever the count.  A count-aware command it runs once when no
    count was typed and as often as the count says otherwise, every time at
    the position the command was given: the runs are chained through the
    session only. *)
Theorem execCount_repeats_at_one_position
    (canBePrefixedWithCount : bool) (exec : Position -> World -> World)
    (position : Position) (w : World) :
  let typed := count (recordedState (vim w)) in
  let run := BaseCommand_execCount canBePrefixedWithCount exec position w in
  (canBePrefixedWithCount = false -> run = exec position w)
  /\ (canBePrefixedWithCount = true -> typed = 0 -> run = exec position w)
  /\ (canBePrefixedWithCount = true -> 0 < typed ->
      run = Nat.iter (Z.to_nat typed) (exec position) w)
  /\ (canBePrefixedWithCount = true -> typed < 0 -> run = w).
Proof.
  intros typed run. unfold run, BaseCommand_execCount, countOr1. fold typed.
  rewrite execCount_loop_iter.
  repeat split.
  - intros ->. reflexivity.
  - intros -> ->. reflexivity.
  - intros -> Hpos. test_is (typed =? 0) false. reflexivity.
  - intros -> Hneg. test_is (typed =? 0) false.
    now replace (Z.to_nat typed) with 0%nat by lia.
Qed.

(* ================================================================= *)
(** ** The visual modes *)

(** The test an action inherits, when it is no operator and need not be
    the first key. *)
Lemma plain_doesActionApply
    (ms : list ModeName) (ks : list string) (vimState : VimState) (typed : list string) :
  BaseAction_doesActionApply (mkBaseAction ms ks false false) vimState typed
  = negb (modes_lack ms (currentMode vimState)) && compareKeypressSequence ks typed.
Proof.
  unfold BaseAction_doesActionApply. cbn [modes keys mustBeFirstKey isBaseOperator].
  rewrite andb_false_r.
  destruct (modes_lack ms (currentMode vimState)),
           (compareKeypressSequence ks typed); reflexivity.
Qed.

Lemma applicable_visual (key : string) (w : World) :
  applicable visualModeCommands key w
  = filter
      (fun c =>
         negb (modes_lack (modes (base (action c))) (currentMode (vim w)))
         && compareKeypressSequence (keys (base (action c))) [key])
      visualModeCommands.
Proof.
  unfold applicable, visualModeCommands.
  cbn [filter action CommandExitVisualMode CommandVisualMode CommandVisualLineMode
       CommandExitVisualLineMode commandClass plainAction doesActionApply base
       modes keys].
  now rewrite !plain_doesActionApply.
Qed.

(** X10.  In Normal, Visual and VisualLine mode each of the keys [v] and
    [V] has exactly one of the four visual-mode commands that applies to
    it, and running it changes the mode and nothing else: [v] leads from
    Normal to Visual and back from either visual mode, [V] leads to
    VisualLine and back from it. *)
Theorem visual_keys_are_unambiguous (key : string) (position : Position) (w : World) :
  In (currentMode (vim w)) [Normal; Visual; VisualLine] ->
  In key ["v"; "V"] ->
  let next :=
    match currentMode (vim w) with
    | Normal => if String.eqb key "v" then Visual else VisualLine
    | Visual => if String.eqb key "v" then Normal else VisualLine
    | _ => Normal
    end in
  List.length (applicable visualModeCommands key w) = 1%nat
  /\ press visualModeCommands key position w
     = Some (set_vim (set_currentMode next (vim w)) w).
Proof.
  intros Hmode Hkey next. subst next. unfold press.
  rewrite applicable_visual.
  simpl in Hmode, Hkey.
  destruct Hkey as [<- | [<- | []]];
    destruct Hmode as [Hm | [Hm | [Hm | []]]]; rewrite <- Hm;
    split; reflexivity.
Qed.

Lemma visual_keys_are_unambiguous_witness :
  let w := mkWorld (vimState_example Visual 0 None) twoLines [] in
  List.length (applicable visualModeCommands "V" w) = 1%nat
  /\ press visualModeCommands "V" (mkPosition 0 0) w
     = Some (set_vim (set_currentMode VisualLine (vim w)) w).
Proof.
  intros w.
  apply (visual_keys_are_unambiguous "V" (mkPosition 0 0) w).
  - right. left. reflexivity.
  - right. left. reflexivity.
Defined.

Lemma set_currentMode_same (w : World) :
  set_vim (set_currentMode (currentMode (vim w)) (vim w)) w = w.
Proof. destruct w as [[m cp cs cj dc rm rs] doc regs]. reflexivity. Qed.

(** X11.  From Normal mode, pressing [v] twice, or [V] twice, gives the
    session back as it was. *)
Theorem visual_key_twice_is_a_round_trip (key : string) (position : Position) (w : World) :
  currentMode (vim w) = Normal ->
  In key ["v"; "V"] ->
  exists w1,
    press visualModeCommands key position w = Some w1
    /\ press visualModeCommands key position w1 = Some w.
Proof.
  intros Hmode Hkey.
  pose proof (set_currentMode_same w) as Hsame.
  destruct w as [[m cp cs cj dc rm rs] doc regs]. cbn [vim currentMode] in *. subst m.
  unfold press. rewrite !applicable_visual.
  simpl in Hkey. destruct Hkey as [<- | [<- | []]];
    (eexists; split; [reflexivity |]); rewrite applicable_visual; reflexivity.
Qed.

Lemma visual_key_twice_is_a_round_trip_witness :
  let w := world_example twoLines 0 None in
  exists w1,
    press visualModeCommands "v" (mkPosition 0 0) w = Some w1
    /\ press visualModeCommands "v" (mkPosition 0 0) w1 = Some w.
Proof.
  intros w.
  apply (visual_key_twice_is_a_round_trip "v" (mkPosition 0 0) w).
  - reflexivity.
  - left. reflexivity.
Defined.

(** X12.  The key [o] of the visual modes is its own inverse: run twice,
    it gives the session back as it was. *)
Theorem other_end_twice_is_identity (position position' : Position) (w : World) :
  CommandGoToOtherEndOfHighlightedText_exec position'
    (CommandGoToOtherEndOfHighlightedText_exec position w) = w.
Proof.
  destruct w as [[m cp cs cj dc rm rs] doc regs]. reflexivity.
Qed.

(* ================================================================= *)
(** ** Half pages *)

(** X13.  From a position in the buffer and with a scroll that is not
    negative, [ctrl+d] and [ctrl+u] stay in the buffer and keep the column;
    [ctrl+u] after [ctrl+d] comes back to the line it left when [ctrl+d]
    was not stopped by the last line, and never below it. *)
Theorem half_pages_stay_in_the_buffer (scroll : Z) (p : Position) (w : World) :
  0 <= scroll ->
  0 <= line p < TextEditor_getLineCount (document w) ->
  let down := CommandMoveHalfPageDown_execAction scroll p w in
  let up := CommandMoveHalfPageUp_execAction scroll p w in
  let back := CommandMoveHalfPageUp_execAction scroll down w in
  line p <= line down < TextEditor_getLineCount (document w)
  /\ 0 <= line up <= line p
  /\ character down = character p /\ character up = character p
  /\ line back <= line p
  /\ (line p + scroll < TextEditor_getLineCount (document w) -> back = p).
Proof.
  intros Hscroll Hline down up back.
  unfold back, down, up, CommandMoveHalfPageDown_execAction,
         CommandMoveHalfPageUp_execAction.
  cbn [line character].
  repeat split; try lia.
  intros Hroom. destruct p as [l c]. cbn [line character] in *.
  f_equal. lia.
Qed.

Lemma half_pages_stay_in_the_buffer_witness :
  let w := world_example [ "a"; "b"; "c"; "d"; "e" ] 0 None in
  let p := mkPosition 1 0 in
  CommandMoveHalfPageUp_execAction 2 (CommandMoveHalfPageDown_execAction 2 p w) w = p
  /\ line (CommandMoveHalfPageDown_execAction 9 p w) = 4.
Proof.
  intros w p.
  destruct (half_pages_stay_in_the_buffer 2 p w) as (_ & _ & _ & _ & _ & Hback).
  - lia.
  - unfold w, TextEditor_getLineCount. simpl. lia.
  - split; [apply Hback; unfold w, TextEditor_getLineCount; simpl; lia | reflexivity].
Defined.

(* ================================================================= *)
(** ** Joining lines *)

Lemma lastCharOf_get (s : string) :
  lastCharOf s = String.get (String.length s - 1) s
  /\ (s <> EmptyString -> lastCharOf s <> None).
Proof.
  induction s as [| c s [IHget IHsome]]; [split; [reflexivity | congruence] |].
  destruct s as [| c' s'].
  - split; [reflexivity | discriminate].
  - split.
    + change (lastCharOf (String c (String c' s'))) with (lastCharOf (String c' s')).
      rewrite IHget. cbn [String.length].
      replace (S (S (String.length s')) - 1)%nat with (S (String.length s')) by lia.
      replace (S (String.length s') - 1)%nat with (String.length s') by lia.
      reflexivity.
    + intros _. apply IHsome. discriminate.
Qed.

Lemma get_at_length (s1 s2 : string) :
  String.get (String.length s1) (s1 ++ s2) = String.get 0 s2.
Proof. symmetry. apply (append_correct2 s1 s2 0). Qed.

Lemma get_before_length (s1 s2 : string) (n : nat) :
  (n < String.length s1)%nat -> String.get n (s1 ++ s2) = String.get n s1.
Proof. intros H. symmetry. now apply append_correct1. Qed.

Lemma length_append (s1 s2 : string) :
  String.length (s1 ++ s2) = (String.length s1 + String.length s2)%nat.
Proof. induction s1 as [| c s1 IH]; simpl; congruence. Qed.

Lemma whitespace_end (lineOne : string) :
  oneEndsWithWhitespace lineOne = true ->
  (0 < String.length lineOne)%nat
  /\ (lastCharOf lineOne = Some " "%char \/ lastCharOf lineOne = Some "009"%char).
Proof.
  unfold oneEndsWithWhitespace, JS.length. intros H.
  apply andb_true_iff in H as [Hlen Hlast].
  split; [rewrite Z.gtb_ltb in Hlen; apply Z.ltb_lt in Hlen; lia |].
  destruct (lastCharOf lineOne) as [c |]; [| discriminate].
  destruct c as [[] [] [] [] [] [] [] []]; vm_compute in Hlast;
    first [discriminate Hlast | now left | now right].
Qed.

Lemma parenthesis_pair (lineOne lineTwo : string) :
  isParenthesisPair lineOne lineTwo = true ->
  lastCharOf lineOne = Some "("%char /\ firstCharOf lineTwo = Some ")"%char.
Proof.
  unfold isParenthesisPair, isChar. intros H.
  apply andb_true_iff in H as [H1 H2].
  destruct (lastCharOf lineOne) as [c1 |]; [| discriminate].
  destruct (firstCharOf lineTwo) as [c2 |]; [| discriminate].
  apply Ascii.eqb_eq in H1, H2. now subst.
Qed.

(** X14.  The join of two lines: the line [J] writes is the first line,
    one space unless the first line ends in white space or the two meet in
    a pair of parentheses, and the rest of the second line.  It is never
    empty, and the column the cursor is left on is always inside it, on the
    character where the two lines meet: the space added, the closing
    parenthesis, or the white space the first line ends in. *)
Theorem join_cursor_is_where_the_lines_meet (lineOne lineTwo : string) :
  let resultLine := ActionJoin_resultLine lineOne lineTwo in
  let column := ActionJoin_cursorColumn lineOne lineTwo in
  0 <= column < JS.length resultLine
  /\ JS.length resultLine
     = JS.length (ActionJoinNoWhitespace_resultLine lineOne lineTwo)
       + (if addSpace lineOne lineTwo then 1 else 0)
  /\ (addSpace lineOne lineTwo = true ->
      String.get (Z.to_nat column) resultLine = Some " "%char)
  /\ (isParenthesisPair lineOne lineTwo = true ->
      String.get (Z.to_nat column) resultLine = Some ")"%char)
  /\ (oneEndsWithWhitespace lineOne = true ->
      String.get (Z.to_nat column) resultLine = lastCharOf lineOne).
Proof.
  intros resultLine column.
  unfold resultLine, column, ActionJoin_resultLine, ActionJoin_cursorColumn,
         ActionJoinNoWhitespace_resultLine, addSpace, JS.length.
  rewrite !length_append.
  destruct (oneEndsWithWhitespace lineOne) eqn:Hws;
    destruct (isParenthesisPair lineOne lineTwo) eqn:Hpair; cbn [negb andb].
  - (* both: the first line would end in white space and in a parenthesis *)
    apply whitespace_end in Hws as [_ Hws].
    apply parenthesis_pair in Hpair as [Hpair _].
    rewrite Hpair in Hws. destruct Hws; discriminate.
  - apply whitespace_end in Hws as [Hlen Hlast].
    pose proof (lastCharOf_get lineOne) as [Hget _].
    cbn [String.length append]. repeat split; try lia; try discriminate.
    intros _.
    replace (Z.to_nat (Z.of_nat (String.length lineOne) + 0 + 0 - 1))
      with (String.length lineOne - 1)%nat by lia.
    rewrite get_before_length by lia. now rewrite Hget.
  - apply parenthesis_pair in Hpair as [Hlast Hfirst].
    pose proof (lastCharOf_get lineOne) as [Hget _].
    destruct lineTwo as [| c2 rest]; [discriminate |].
    cbn [firstCharOf] in Hfirst. injection Hfirst as ->.
    cbn [String.length append]. repeat split; try lia; try discriminate.
    intros _.
    replace (Z.to_nat (Z.of_nat (String.length lineOne) + 0 + 1 - 1))
      with (String.length lineOne) by lia.
    now rewrite get_at_length.
  - cbn [String.length append]. repeat split; try lia; try discriminate.
    intros _.
    replace (Z.to_nat (Z.of_nat (String.length lineOne) + 1 + 0 - 1))
      with (String.length lineOne) by lia.
    now rewrite get_at_length.
Qed.

Example join_adds_a_space :
  ActionJoin_resultLine "foo" "bar" = "foo bar"
  /\ ActionJoin_cursorColumn "foo" "bar" = 3.
Proof. split; reflexivity. Qed.

Example join_of_parentheses :
  ActionJoin_resultLine "f(" ")" = "f()" /\ ActionJoin_cursorColumn "f(" ")" = 2.
Proof. split; reflexivity. Qed.

Example join_of_empty_lines :
  ActionJoin_resultLine "" "" = " " /\ ActionJoin_cursorColumn "" "" = 0.
Proof. split; reflexivity. Qed.

(* ================================================================= *)
(** ** Toggling case *)

Lemma case_of_chars (c : ascii) :
  lowerChar (lowerChar c) = lowerChar c
  /\ lowerChar (upperChar c) = lowerChar c
  /\ upperChar (lowerChar c) = upperChar c
  /\ upperChar (upperChar c) = upperChar c
  /\ (lowerChar c = upperChar c -> lowerChar c = c).
Proof.
  destruct c as [[] [] [] [] [] [] [] []];
    (repeat split; try reflexivity; vm_compute; intros H; first [exact H | discriminate H]).
Qed.

Lemma case_of_text (s : string) :
  toLocaleLowerCase (toLocaleLowerCase s) = toLocaleLowerCase s
  /\ toLocaleLowerCase (toLocaleUpperCase s) = toLocaleLowerCase s
  /\ toLocaleUpperCase (toLocaleLowerCase s) = toLocaleUpperCase s
  /\ toLocaleUpperCase (toLocaleUpperCase s) = toLocaleUpperCase s
  /\ (toLocaleLowerCase s = toLocaleUpperCase s -> toLocaleLowerCase s = s).
Proof.
  unfold toLocaleLowerCase, toLocaleUpperCase.
  induction s as [| c s (IH1 & IH2 & IH3 & IH4 & IH5)]; [repeat split |].
  destruct (case_of_chars c) as (H1 & H2 & H3 & H4 & H5).
  cbn [mapChars]. repeat split; try congruence.
  intros H. injection H as Hc Hs. f_equal; auto.
Qed.

Lemma toggled_cases (char : string) :
  (toLocaleLowerCase char = char -> ToggleCase_toggled char = toLocaleUpperCase char)
  /\ (toLocaleLowerCase char <> char -> ToggleCase_toggled char = toLocaleLowerCase char).
Proof.
  unfold ToggleCase_toggled.
  destruct (String.eqb_spec (toLocaleLowerCase char) char); split; tauto.
Qed.

(** X15.  What [~] writes over a selection of ASCII text: the text in
    lower case when that differs from it, else the text in upper case.
    So a selection in mixed case is first made lower case; toggling a
    second time gives the text back when it was all in one case, and from
    the first toggle on the text alternates between two forms. *)
Theorem toggle_case_alternates (char : string) :
  isAsciiText char = true ->
  let once := ToggleCase_toggled char in
  let twice := ToggleCase_toggled once in
  (toLocaleLowerCase char <> char -> once = toLocaleLowerCase char)
  /\ (toLocaleLowerCase char = char -> once = toLocaleUpperCase char)
  /\ (toLocaleLowerCase char = char \/ toLocaleUpperCase char = char -> twice = char)
  /\ ToggleCase_toggled twice = once.
Proof.
  intros _ once twice.
  destruct (case_of_text char) as (Hll & Hlu & Hul & Huu & Hfix).
  destruct (toggled_cases char) as [Hlower Hmixed].
  split; [exact Hmixed |]. split; [exact Hlower |].
  destruct (string_dec (toLocaleLowerCase char) char) as [Hlow | Hlow].
  - (* no upper-case letter: upper case, and back *)
    assert (Honce : once = toLocaleUpperCase char) by (apply Hlower; exact Hlow).
    assert (Htwice : twice = char).
    { unfold twice. rewrite Honce.
      destruct (toggled_cases (toLocaleUpperCase char)) as [Hup Hdown].
      destruct (string_dec (toLocaleUpperCase char) char) as [Hsame | Hdiff].
      - rewrite Hup by (rewrite Hlu, Hlow; congruence). now rewrite Huu.
      - rewrite Hdown by (rewrite Hlu, Hlow; congruence). now rewrite Hlu. }
    split; [intros _; exact Htwice |].
    now rewrite Htwice.
  - (* an upper-case letter: lower case, then upper case, and so on *)
    assert (Honce : once = toLocaleLowerCase char) by (apply Hmixed; exact Hlow).
    assert (Htwice : twice = toLocaleUpperCase char).
    { unfold twice. rewrite Honce.
      destruct (toggled_cases (toLocaleLowerCase char)) as [Hup _].
      rewrite Hup by exact Hll. exact Hul. }
    split.
    + intros [Habs | Hup]; [contradiction | congruence].
    + rewrite Htwice, Honce.
      destruct (toggled_cases (toLocaleUpperCase char)) as [_ Hdown].
      rewrite Hdown; [exact Hlu |].
      rewrite Hlu. intros Hsame. apply Hlow, Hfix. exact Hsame.
Qed.

Lemma toggle_case_alternates_witness :
  ToggleCase_toggled "Hello, World" = "hello, world"
  /\ ToggleCase_toggled (ToggleCase_toggled "Hello, World") = "HELLO, WORLD"
  /\ ToggleCase_toggled (ToggleCase_toggled (ToggleCase_toggled "Hello, World"))
     = ToggleCase_toggled "Hello, World".
Proof.
  destruct (toggle_case_alternates "Hello, World" eq_refl) as (_ & _ & _ & Hthree).
  split; [reflexivity | split; [reflexivity | exact Hthree]].
Defined.

(* ================================================================= *)
(** ** The tab command *)

Lemma executeCommandWithCount_loop_repeat
    (n : nat) (command : string) (issued : list EditorCommand) :
  executeCommandWithCount_loop n command issued
  = (issued ++ repeat (Run command) n)%list.
Proof.
  revert issued. induction n as [| n IH]; intros issued; cbn [executeCommandWithCount_loop].
  - now rewrite app_nil_r.
  - rewrite IH, <- app_assoc. reflexivity.
Qed.

(** X16.  The tab command with a count [n] from 1 on: [Next] opens the
    first tab and steps on [n - 1] times, so it issues [n] commands and
    ends on tab [n]; [Previous] steps back [n] times.  Without a count
    either takes one step; with the count 0 [Next] takes one step and
    [Previous] none. *)
Theorem tab_next_and_previous (n : Z) :
  1 <= n ->
  TabCommand_execute (mkTabArguments Tab_Next (Some n))
  = Run "workbench.action.openEditorAtIndex1"
      :: repeat (Run "workbench.action.nextEditor") (Z.to_nat (n - 1))
  /\ List.length (TabCommand_execute (mkTabArguments Tab_Next (Some n))) = Z.to_nat n
  /\ TabCommand_execute (mkTabArguments Tab_Previous (Some n))
     = repeat (Run "workbench.action.previousEditor") (Z.to_nat n)
  /\ TabCommand_execute (mkTabArguments Tab_Next None)
     = TabCommand_execute (mkTabArguments Tab_Next (Some 0))
  /\ TabCommand_execute (mkTabArguments Tab_Next None)
     = [Run "workbench.action.nextEditor"]
  /\ TabCommand_execute (mkTabArguments Tab_Previous None)
     = [Run "workbench.action.previousEditor"]
  /\ TabCommand_execute (mkTabArguments Tab_Previous (Some 0)) = [].
Proof.
  intros Hn. unfold TabCommand_execute, executeCommandWithCount, countOr1.
  cbn [tab tab_count].
  test_is (n =? 0) false.
  replace (n <=? 0) with false by (symmetry; apply Z.leb_gt; lia).
  cbn [negb].
  rewrite !executeCommandWithCount_loop_repeat.
  split; [reflexivity |].
  split; [cbn [app List.length]; rewrite repeat_length; lia |].
  repeat split.
Qed.

Lemma tab_next_and_previous_witness :
  TabCommand_execute (mkTabArguments Tab_Next (Some 3))
  = [ Run "workbench.action.openEditorAtIndex1";
      Run "workbench.action.nextEditor"; Run "workbench.action.nextEditor" ].
Proof.
  destruct (tab_next_and_previous 3 ltac:(lia)) as (H & _).
  exact H.
Defined.

(* ================================================================= *)
(** ** More on the delete and change operators *)

(** X17.  [DeleteOperator.delete] does not look at the mode it is given:
    the position it returns and the session it leaves are the same for any
    two modes (the cursor it computes for Visual mode is overwritten).
    With [yank] off it leaves the registers alone, it never writes to the
    interpreter state, and a linewise delete returns column 0. *)
Theorem delete_ignores_the_mode
    (TextEditor_getText : Document -> Position -> Position -> string)
    (TextEditor_delete : Document -> Position -> Position -> Document)
    (start end_ : Position) (mode mode' : ModeName) (registerMode : RegisterMode)
    (vimState : VimState) (yank : bool) (w : World) :
  let delete := DeleteOperator_delete TextEditor_getText TextEditor_delete start end_ in
  delete mode registerMode vimState yank w = delete mode' registerMode vimState yank w
  /\ match delete mode registerMode vimState yank w with
     | Some (result, w') =>
         vim w' = vim w
         /\ (yank = false -> registers w' = registers w)
         /\ (registerMode = LineWise -> character result = 0)
     | None => True
     end.
Proof.
  intros delete. unfold delete, DeleteOperator_delete.
  destruct (DeleteOperator_range (document w) start end_ registerMode)
    as [[start' end'] |]; [| split; [reflexivity | exact I]].
  match goal with
  | |- context [TextEditor_getLineAt ?d start'] =>
      destruct (TextEditor_getLineAt d start') as [lineAtStart |]
  end; [| split; [reflexivity | exact I]].
  split; [reflexivity |].
  repeat split.
  - destruct yank; reflexivity.
  - intros ->. reflexivity.
  - intros ->. cbn [RegisterMode_eqb].
    destruct (character start' >=? JS.length lineAtStart); reflexivity.
Qed.

(** X18.  [c] on an empty line deletes nothing: for a range in the buffer
    that starts on an empty line, [ChangeOperator.run] leaves the buffer
    and the registers as they are and switches to Insert mode; the cursor
    moves (one column right, where the line allows) only when the end of
    the range is the last character of its line. *)
Theorem change_on_an_empty_line
    (TextEditor_getText : Document -> Position -> Position -> string)
    (TextEditor_delete : Document -> Position -> Position -> Document)
    (effectiveRegisterMode : VimState -> RegisterMode)
    (start end_ : Position) (w : World) :
  0 <= line start < TextEditor_getLineCount (document w) ->
  0 <= line end_ < TextEditor_getLineCount (document w) ->
  Position_getLineLength (document w) (line start) = 0 ->
  exists w',
    ChangeOperator_run TextEditor_getText TextEditor_delete effectiveRegisterMode
      start end_ w = Some w'
    /\ document w' = document w
    /\ registers w' = registers w
    /\ currentMode (vim w') = Insert
    /\ cursorPosition (vim w')
       = (if character end_ =? Position_getLineLength (document w) (line end_) - 1
          then getRight (document w) (cursorPosition (vim w))
          else cursorPosition (vim w)).
Proof.
  intros Hstart Hend Hempty. unfold ChangeOperator_run.
  destruct (getLineAt_inside (document w) end_ Hend) as (lineAtEnd & -> & ->).
  destruct (getLineAt_inside (document w) start Hstart) as (lineAtStart & -> & _).
  rewrite Hempty. cbn [Z.eqb negb].
  destruct (character end_ =? JS.length lineAtEnd - 1);
    eexists; repeat split.
Qed.

Lemma change_on_an_empty_line_witness :
  let getText := fun (doc : Document) (a b : Position) => lineText doc a in
  let delete := fun (doc : Document) (a b : Position) => doc in
  let w := world_example [ "one"; ""; "three" ] 0 (Some ChangeOperator) in
  exists w',
    ChangeOperator_run getText delete currentRegisterMode
      (mkPosition 1 0) (mkPosition 1 0) w = Some w'
    /\ document w' = document w
    /\ currentMode (vim w') = Insert.
Proof.
  intros getText delete w.
  destruct (change_on_an_empty_line getText delete currentRegisterMode
              (mkPosition 1 0) (mkPosition 1 0) w)
    as (w' & Hrun & Hdoc & _ & Hmode & _).
  - unfold w, TextEditor_getLineCount. simpl. lia.
  - unfold w, TextEditor_getLineCount. simpl. lia.
  - reflexivity.
  - exists w'. split; [exact Hrun |]. split; [exact Hdoc | exact Hmode].
Defined.

(* ================================================================= *)
(** ** The direction of a yank *)

Lemma compareTo_zero (p q : Position) : Position_compareTo p q = 0 -> p = q.
Proof.
  unfold Position_compareTo. destruct p as [l c], q as [l' c']. cbn [line character].
  destruct (Z.ltb_spec l l'); [discriminate |].
  destruct (Z.gtb_spec l l'); [discriminate |].
  destruct (Z.ltb_spec c c'); [discriminate |].
  destruct (Z.gtb_spec c c'); [discriminate |].
  intros _. f_equal; lia.
Qed.

Lemma compareTo_opposite (p q : Position) :
  Position_compareTo p q < 0 -> Position_compareTo q p > 0.
Proof.
  unfold Position_compareTo.
  destruct (Z.ltb_spec (line p) (line q)).
  - intros _. destruct (Z.ltb_spec (line q) (line p)); [lia |].
    destruct (Z.gtb_spec (line q) (line p)); lia.
  - destruct (Z.gtb_spec (line p) (line q)); [lia |].
    destruct (Z.ltb_spec (character p) (character q)).
    + intros _. destruct (Z.ltb_spec (line q) (line p)); [lia |].
      destruct (Z.gtb_spec (line q) (line p)); [lia |].
      destruct (Z.ltb_spec (character q) (character p)); [lia |].
      destruct (Z.gtb_spec (character q) (character p)); lia.
    + destruct (Z.gtb_spec (character p) (character q)); lia.
Qed.

(** X19.  A yank does not depend on the direction of its range:
    [YankOperator.run] on [(start, end)] and on [(end, start)] leave the
    same session. *)
Theorem yank_is_symmetric
    (TextEditor_getText : Document -> Position -> Position -> string)
    (start end_ : Position) (w : World) :
  YankOperator_run TextEditor_getText start end_ w
  = YankOperator_run TextEditor_getText end_ start w.
Proof.
  unfold YankOperator_run.
  destruct (Z.leb_spec (Position_compareTo start end_) 0) as [Hle | Hgt];
    destruct (Z.leb_spec (Position_compareTo end_ start) 0) as [Hle' | Hgt'];
    try reflexivity.
  - assert (Hzero : Position_compareTo start end_ = 0).
    { destruct (Z.eq_dec (Position_compareTo start end_) 0) as [E | E]; [exact E |].
      pose proof (compareTo_opposite start end_). lia. }
    apply compareTo_zero in Hzero. subst end_. reflexivity.
  - pose proof (compareTo_swap start end_). lia.
Qed.

(* ================================================================= *)
(** ** Pasting a block *)

Lemma nth_setLine (l : nat) (text : string) (doc : Document) (j : nat) :
  (l < List.length doc)%nat ->
  nth j (setLine l text doc) EmptyString
  = if Nat.eqb j l then text else nth j doc EmptyString.
Proof.
  intros Hl. unfold setLine.
  assert (Hfirst : List.length (firstn l doc) = l) by (rewrite length_firstn; lia).
  destruct (Nat.eqb_spec j l) as [-> | Hne].
  - rewrite app_nth2 by lia. rewrite Hfirst, Nat.sub_diag. reflexivity.
  - destruct (Nat.lt_ge_cases j l) as [Hlt | Hge].
    + rewrite app_nth1 by lia. rewrite nth_firstn.
      replace (Nat.ltb j l) with true by (symmetry; apply Nat.ltb_lt; lia). reflexivity.
    + rewrite app_nth2 by lia. rewrite Hfirst.
      destruct (j - l)%nat as [| m] eqn:E; [lia |].
      cbn [nth]. rewrite nth_skipn. f_equal. lia.
Qed.

Lemma length_setLine (l : nat) (text : string) (doc : Document) :
  (l < List.length doc)%nat -> List.length (setLine l text doc) = List.length doc.
Proof.
  intros Hl. unfold setLine.
  rewrite length_app, length_firstn. cbn [List.length]. rewrite length_skipn. lia.
Qed.

Lemma nth_padded (doc : Document) (k j : nat) :
  nth j (doc ++ repeat EmptyString k)%list EmptyString = nth j doc EmptyString.
Proof.
  destruct (Nat.lt_ge_cases j (List.length doc)) as [Hlt | Hge].
  - now rewrite app_nth1.
  - rewrite app_nth2 by lia. rewrite (nth_overflow doc) by lia.
    destruct (Nat.lt_ge_cases (j - List.length doc) k) as [H | H].
    + now rewrite nth_repeat_lt.
    + apply nth_overflow. now rewrite repeat_length.
Qed.

Lemma getLineAt_nth (doc : Document) (p : Position) (text : string) :
  TextEditor_getLineAt doc p = Some text ->
  nth (Z.to_nat (line p)) doc EmptyString = text.
Proof.
  unfold TextEditor_getLineAt. destruct (line p <? 0); [discriminate |].
  apply nth_error_nth.
Qed.

Lemma lineText_nth (doc : Document) (j : Z) :
  0 <= j -> lineText doc (mkPosition j 0) = nth (Z.to_nat j) doc EmptyString.
Proof.
  intros Hj. unfold lineText, TextEditor_getLineAt. cbn [line].
  test_is (j <? 0) false.
  destruct (nth_error doc (Z.to_nat j)) as [text |] eqn:E.
  - symmetry. now apply nth_error_nth.
  - apply nth_error_None in E. symmetry. now apply nth_overflow.
Qed.

Section BlockPaste.

Variable TextEditor_insertAt : string -> Position -> Document -> Document.

(** Line breaks put in at the end of the last line add empty lines. *)
Hypothesis insertAt_pads : forall (doc : Document) (k : nat) (text : string),
  TextEditor_getLineAt doc (mkPosition (TextEditor_getLineCount doc - 1) 0) = Some text ->
  TextEditor_insertAt (newlines k)
    (mkPosition (TextEditor_getLineCount doc - 1) (JS.length text)) doc
  = (doc ++ repeat EmptyString k)%list.

(** Text without a line break put in on a line changes that line only. *)
Hypothesis insertAt_line : forall (doc : Document) (piece : string) (p : Position)
    (text : string),
  hasNewline piece = false ->
  TextEditor_getLineAt doc p = Some text ->
  0 <= character p <= JS.length text ->
  TextEditor_insertAt piece p doc
  = setLine (Z.to_nat (line p)) (pasteInto text (character p) piece) doc.

Lemma execVisualBlockPaste_loop_spec (block : list string) :
  forall (l c : Z) (doc : Document),
    0 <= l -> 0 <= c ->
    Forall (fun piece => hasNewline piece = false) block ->
    l + Z.of_nat (List.length block) <= TextEditor_getLineCount doc ->
    exists doc',
      execVisualBlockPaste_loop TextEditor_insertAt block l c doc = Some doc'
      /\ List.length doc' = List.length doc
      /\ forall j : nat,
           nth j doc' EmptyString
           = if (l <=? Z.of_nat j) && (Z.of_nat j <? l + Z.of_nat (List.length block))
             then pasteInto (nth j doc EmptyString)
                    (Z.min c (JS.length (nth j doc EmptyString)))
                    (nth (Z.to_nat (Z.of_nat j - l)) block EmptyString)
             else nth j doc EmptyString.
Proof.
  induction block as [| piece rest IH]; intros l c doc Hl Hc Hblock Hfit.
  - exists doc. split; [reflexivity | split; [reflexivity |]].
    intros j. cbn [List.length]. rewrite Z.add_0_r.
    destruct (Z.leb_spec l (Z.of_nat j)); destruct (Z.ltb_spec (Z.of_nat j) l);
      cbn [andb]; try reflexivity; lia.
  - cbn [List.length] in Hfit. unfold TextEditor_getLineCount in Hfit.
    inversion Hblock as [| ? ? Hpiece Hrest]; subst.
    destruct (getLineAt_inside doc (mkPosition l 0)) as [text [Hget _]].
    { unfold TextEditor_getLineCount. cbn [line]. lia. }
    pose proof (getLineAt_nth _ _ _ Hget) as Hnth. cbn [line] in Hnth.
    cbn [execVisualBlockPaste_loop]. rewrite Hget.
    assert (Hlen : 0 <= JS.length text) by (unfold JS.length; lia).
    rewrite (insertAt_line doc piece (mkPosition l (Z.min c (JS.length text))) text Hpiece Hget)
      by (cbn [character]; lia).
    cbn [line character].
    assert (Hin : (Z.to_nat l < List.length doc)%nat) by lia.
    set (doc1 := setLine (Z.to_nat l) (pasteInto text (Z.min c (JS.length text)) piece) doc).
    destruct (IH (l + 1) c doc1) as [doc' [Hrun [Hsize Hlines]]]; [lia | exact Hc | exact Hrest | |].
    { unfold TextEditor_getLineCount, doc1. rewrite length_setLine by exact Hin. lia. }
    exists doc'. split; [exact Hrun | split].
    + rewrite Hsize. unfold doc1. now apply length_setLine.
    + intros j. rewrite Hlines. unfold doc1. rewrite !nth_setLine by exact Hin.
      cbn [List.length].
      destruct (Nat.eqb_spec j (Z.to_nat l)) as [-> | Hne].
      * rewrite Z2Nat.id by lia.
        replace (l + 1 <=? l) with false by (symmetry; apply Z.leb_gt; lia).
        replace (l <=? l) with true by (symmetry; apply Z.leb_le; lia).
        replace (l <? l + Z.of_nat (S (List.length rest))) with true
          by (symmetry; apply Z.ltb_lt; lia).
        cbn [andb]. rewrite Z.sub_diag. cbn [Z.to_nat nth]. now rewrite Hnth.
      * destruct (Z.leb_spec (l + 1) (Z.of_nat j)) as [Hge | Hlt].
        -- replace (l <=? Z.of_nat j) with true by (symmetry; apply Z.leb_le; lia).
           replace (l + 1 + Z.of_nat (List.length rest))
             with (l + Z.of_nat (S (List.length rest))) by lia.
           destruct (Z.of_nat j <? l + Z.of_nat (S (List.length rest))); cbn [andb];
             [| reflexivity].
           replace (Z.to_nat (Z.of_nat j - l)) with (S (Z.to_nat (Z.of_nat j - (l + 1))))
             by lia.
           reflexivity.
        -- replace (l <=? Z.of_nat j) with false by (symmetry; apply Z.leb_gt; lia).
           reflexivity.
Qed.

(** X20.  Pasting a block of lines that hold no line break, at a position
    of the buffer, on a host whose insert adds empty lines for line breaks
    at the end of the buffer and changes one line otherwise: every line
    lookup of [PutCommand.execVisualBlockPaste] is inside the buffer, the
    buffer grows to just hold the block (its line count becomes the
    larger of the old one and the target line plus the block's height),
    each line of the block goes into the buffer line beside it at the
    target column or at the end of a shorter line, and every other line
    is kept. *)
Theorem block_paste_fits_the_buffer
    (block : list string) (position : Position) (after : bool) (w : World) :
  0 <= line position < TextEditor_getLineCount (document w) ->
  0 <= character position ->
  Forall (fun piece => hasNewline piece = false) block ->
  let target := if after then getRight (document w) position else position in
  let height := Z.of_nat (List.length block) in
  exists w',
    PutCommand_execVisualBlockPaste TextEditor_insertAt block position after w = Some w'
    /\ TextEditor_getLineCount (document w')
       = Z.max (TextEditor_getLineCount (document w)) (line target + height)
    /\ forall j : Z, 0 <= j ->
         lineText (document w') (mkPosition j 0)
         = if (line target <=? j) && (j <? line target + height)
           then pasteInto (lineText (document w) (mkPosition j 0))
                  (Z.min (character target)
                     (JS.length (lineText (document w) (mkPosition j 0))))
                  (nth (Z.to_nat (j - line target)) block EmptyString)
           else lineText (document w) (mkPosition j 0).
Proof.
  intros Hline Hcharacter Hblock target height.
  assert (Htarget : line target = line position /\ 0 <= character target).
  { unfold target, getRight. destruct after; [| split; [reflexivity | exact Hcharacter]].
    destruct (isLineEnd (document w) position); cbn [line character]; split;
      try reflexivity; lia. }
  destruct Htarget as [Htl Htc].
  unfold PutCommand_execVisualBlockPaste. fold target. fold height.
  set (count := TextEditor_getLineCount (document w)) in *.
  set (linesToAdd := Z.max 0 (height - (count - line target) + 1)).
  assert (Hpadded : exists doc,
    (if linesToAdd >? 0
     then match TextEditor_getLineAt (document w) (mkPosition (count - 1) 0) with
          | None => None
          | Some text =>
              Some (TextEditor_insertAt (Array_join_newlines linesToAdd)
                      (mkPosition (count - 1) (JS.length text)) (document w))
          end
     else Some (document w)) = Some doc
    /\ TextEditor_getLineCount doc = Z.max count (line target + height)
    /\ forall j : nat, nth j doc EmptyString = nth j (document w) EmptyString).
  { destruct (Z.gtb_spec linesToAdd 0) as [Hadd | Hnone].
    - destruct (getLineAt_inside (document w) (mkPosition (count - 1) 0)) as [text [Hget _]].
      { cbn [line]. fold count. lia. }
      rewrite Hget. unfold Array_join_newlines.
      exists (document w ++ repeat EmptyString (Z.to_nat (linesToAdd - 1)))%list.
      split; [f_equal; unfold count; now apply insertAt_pads | split].
      + unfold TextEditor_getLineCount. rewrite length_app, repeat_length.
        unfold linesToAdd, count, TextEditor_getLineCount in *. lia.
      + intros j. apply nth_padded.
    - exists (document w). split; [reflexivity | split; [fold count; lia | reflexivity]]. }
  destruct Hpadded as [doc [-> [Hcount Hsame]]].
  destruct (execVisualBlockPaste_loop_spec block (line target) (character target) doc)
    as [doc' [Hrun [Hsize Hlines]]]; [lia | exact Htc | exact Hblock | fold height; lia |].
  rewrite Hrun. eexists. split; [reflexivity | split].
  - cbn [document set_vim set_document]. unfold TextEditor_getLineCount in *. lia.
  - intros j Hj. cbn [document set_vim set_document].
    rewrite !lineText_nth by exact Hj. rewrite Hlines, !Hsame.
    rewrite Z2Nat.id by exact Hj. reflexivity.
Qed.

End BlockPaste.

Lemma append_empty (s : string) : (s ++ EmptyString)%string = s.
Proof. induction s as [| c s IH]; cbn; [reflexivity | now rewrite IH]. Qed.

Lemma splitLines_of_a_line (s : string) : hasNewline s = false -> splitLines s = [s].
Proof.
  induction s as [| c s IH]; [reflexivity |].
  cbn [hasNewline splitLines]. destruct (Ascii.eqb c newline); [discriminate |].
  cbn [orb]. intros H. now rewrite (IH H).
Qed.

Lemma splitLines_newlines (k : nat) : splitLines (newlines k) = repeat EmptyString (S k).
Proof.
  induction k as [| k IH]; [reflexivity |].
  cbn [newlines splitLines]. replace (Ascii.eqb newline newline) with true by reflexivity.
  now rewrite IH.
Qed.

Lemma glue_empty_lines (k : nat) : forall pre : string,
  glue pre (repeat EmptyString (S k)) EmptyString = pre :: repeat EmptyString k.
Proof.
  induction k as [| k IH]; intros pre.
  - cbn. now rewrite append_empty.
  - change (repeat EmptyString (S (S k)))
      with (EmptyString :: repeat EmptyString (S k)).
    cbn [glue]. cbn [repeat]. fold (repeat EmptyString (S k)).
    rewrite append_empty. f_equal. apply (IH EmptyString).
Qed.

Lemma substring_whole (s : string) : substring 0 (String.length s) s = s.
Proof. induction s as [| c s IH]; cbn; [reflexivity | now rewrite IH]. Qed.

Lemma dropChars_whole (s : string) : dropChars (String.length s) s = EmptyString.
Proof. induction s as [| c s IH]; cbn; [reflexivity | exact IH]. Qed.

Lemma insertAt_sample_pads (doc : Document) (k : nat) (text : string) :
  TextEditor_getLineAt doc (mkPosition (TextEditor_getLineCount doc - 1) 0) = Some text ->
  insertAt_sample (newlines k)
    (mkPosition (TextEditor_getLineCount doc - 1) (JS.length text)) doc
  = (doc ++ repeat EmptyString k)%list.
Proof.
  intros Hget. unfold insertAt_sample.
  assert (Hget' : TextEditor_getLineAt doc
            (mkPosition (TextEditor_getLineCount doc - 1) (JS.length text)) = Some text)
    by exact Hget.
  rewrite Hget'. cbn [line character]. unfold JS.length. rewrite Nat2Z.id.
  rewrite substring_whole, dropChars_whole, splitLines_newlines, glue_empty_lines.
  unfold TextEditor_getLineAt in Hget. cbn [line] in Hget.
  destruct (TextEditor_getLineCount doc - 1 <? 0); [discriminate |].
  unfold TextEditor_getLineCount in *.
  assert (Hlast : (Z.to_nat (Z.of_nat (List.length doc) - 1) < List.length doc)%nat).
  { apply nth_error_Some. now rewrite Hget. }
  set (l := Z.to_nat (Z.of_nat (List.length doc) - 1)) in *.
  assert (Hl : S l = List.length doc) by lia.
  rewrite (skipn_all2 doc) by lia. rewrite app_nil_r.
  apply nth_error_split in Hget. destruct Hget as [before [after_ [Hdoc Hbefore]]].
  assert (Hafter : after_ = []).
  { rewrite Hdoc, length_app in Hl. cbn [List.length] in Hl.
    destruct after_; [reflexivity | cbn [List.length] in Hl; lia]. }
  rewrite Hdoc, Hafter.
  rewrite firstn_app, Hbefore, Nat.sub_diag, firstn_all2 by lia.
  cbn [firstn]. rewrite app_nil_r, <- app_assoc. reflexivity.
Qed.

Lemma insertAt_sample_line (doc : Document) (piece : string) (p : Position) (text : string) :
  hasNewline piece = false ->
  TextEditor_getLineAt doc p = Some text ->
  0 <= character p <= JS.length text ->
  insertAt_sample piece p doc
  = setLine (Z.to_nat (line p)) (pasteInto text (character p) piece) doc.
Proof.
  intros Hpiece Hget _. unfold insertAt_sample. rewrite Hget.
  rewrite (splitLines_of_a_line piece Hpiece). reflexivity.
Qed.

Lemma block_paste_fits_the_buffer_witness :
  let w := world_example ["abcdef"; "gh"] 0 None in
  let block := ["12"; "34"; "56"] in
  0 <= line (mkPosition 1 3) < TextEditor_getLineCount (document w)
  /\ Forall (fun piece => hasNewline piece = false) block
  /\ exists w',
       PutCommand_execVisualBlockPaste insertAt_sample block (mkPosition 1 3) false w
       = Some w'
       /\ TextEditor_getLineCount (document w') = 4.
Proof.
  intros w block.
  assert (Hline : 0 <= line (mkPosition 1 3) < TextEditor_getLineCount (document w))
    by (unfold TextEditor_getLineCount; simpl; lia).
  assert (Hblock : Forall (fun piece => hasNewline piece = false) block)
    by (repeat constructor).
  split; [exact Hline | split; [exact Hblock |]].
  destruct (block_paste_fits_the_buffer insertAt_sample insertAt_sample_pads
              insertAt_sample_line block (mkPosition 1 3) false w Hline)
    as [w' [Hrun [Hcount _]]]; [simpl; lia | exact Hblock |].
  exists w'. split; [exact Hrun | exact Hcount].
Defined.

Example block_paste_at_the_end :
  option_map document
    (PutCommand_execVisualBlockPaste insertAt_sample ["12"; "34"; "56"] (mkPosition 1 3) false
       (world_example ["abcdef"; "gh"] 0 None))
  = Some ["abcdef"; "gh12"; "34"; "56"].
Proof. reflexivity. Qed.
